(** * The pagination-and-extraction engine of [src/page.ts]

    A shallow embedding of the three extraction flows of the scraper
    ([getPostUrls], [getReviews], [getPostComments]) together with the
    control primitives they share.

    The browser is the environment.  Everything it decides (which responses
    arrive and when, what a selector returns or whether it throws, when the
    idle timer fires) is an explicit input of the model; the code of
    [page.ts] is the deterministic function of those inputs.  One firing of a
    response observer and one cycle of the scroll driver are taken as one
    step each: the runtime is single threaded and the shared state is only
    touched between suspension points. *)

From Stdlib Require Import List String Bool Arith ZArith Lia.
Import ListNotations.
Local Open Scope string_scope.
Local Open Scope nat_scope.
Local Open Scope list_scope.

(** ** JavaScript values the flows rely on *)

(** What a [try] block can catch.  [InfoError] carries its message and the
    [namespace] of its meta data; the url it also carries is never inspected
    by the engine. *)
Inductive Error : Type :=
| InfoError (message namespace : string)
| AbortError
| TimeoutError
| OtherError (message : string).

(** The outcome of awaiting a collaborator: a value, or a thrown error. *)
Inductive Result (A : Type) : Type :=
| Ok (value : A)
| Throw (e : Error).
Arguments Ok {A} value.
Arguments Throw {A} e.

(** [String.prototype.includes]. *)
Definition includes (needle hay : string) : bool :=
  match index 0 needle hay with
  | Some _ => true
  | None => false
  end.

(** [a || b] on values that are either a string or missing. *)
Definition orElse {A : Type} (a b : option A) : option A :=
  match a with
  | Some _ => a
  | None => b
  end.

(** A JavaScript [Set] of strings: insertion ordered, no duplicates. *)
Module JsSet.

Definition t : Type := list string.

Definition has (x : string) (s : t) : bool := existsb (String.eqb x) s.

Definition add (x : string) (s : t) : t := if has x s then s else s ++ [x].

Definition size (s : t) : nat := List.length s.

(** [new Set(iterable)]. *)
Definition of_list (l : list string) : t := fold_left (fun s x => add x s) l [].

(** [[...set.values()]]. *)
Definition values (s : t) : list string := s.

End JsSet.

(** A JavaScript [Map] with string keys: insertion ordered; [set] on a
    present key replaces the value in place. *)
Module JsMap.

Section WithValue.

Context {V : Type}.

Definition t : Type := list (string * V).

Fixpoint get (k : string) (m : t) : option V :=
  match m with
  | [] => None
  | (k', v) :: rest => if String.eqb k k' then Some v else get k rest
  end.

Definition has (k : string) (m : t) : bool :=
  match get k m with
  | Some _ => true
  | None => false
  end.

Fixpoint set (k : string) (v : V) (m : t) : t :=
  match m with
  | [] => [(k, v)]
  | (k', v') :: rest =>
      if String.eqb k k' then (k, v) :: rest else (k', v') :: set k v rest
  end.

Definition size (m : t) : nat := List.length m.

(** [new Map(entries)]. *)
Definition of_entries (l : list (string * V)) : t :=
  fold_left (fun m kv => set (fst kv) (snd kv) m) l [].

(** [[...map.entries()]]. *)
Definition entries (m : t) : list (string * V) := m.

End WithValue.

Arguments t V : clear implicits.

End JsMap.

(** ** Control primitives imported from [./functions] *)

(** Modelled from the spec: [deferred()] of [./functions] is not part of the
    sources at hand.  Section 4.1: a single-resolution signal with the two
    terminal outcomes resolved and rejected; settling twice is a no-op and
    whichever settles first wins.  The getter [resolved] reports that the
    gate is settled. *)
Module Deferred.

Inductive t : Type :=
| Pending
| Resolved
| Rejected (e : Error).

Definition resolve (g : t) : t :=
  match g with
  | Pending => Resolved
  | _ => g
  end.

Definition reject (e : Error) (g : t) : t :=
  match g with
  | Pending => Rejected e
  | _ => g
  end.

Definition resolved (g : t) : bool :=
  match g with
  | Pending => false
  | _ => true
  end.

End Deferred.

(** Modelled from the spec: [MinMaxDates] of [./functions] is not part of the
    sources at hand.  Section 3: inclusive [min, max] instant bounds with
    [accepts(timestamp)]; the code calls it [date.compare].  Instants are
    the values [convertDate] produces, an adapter outside the engine. *)
Record MinMaxDates : Type := {
  minDate : Z;
  maxDate : Z
}.

Definition compare (d : MinMaxDates) (ts : Z) : bool :=
  (minDate d <=? ts)%Z && (ts <=? maxDate d)%Z.

(** Modelled from the spec: [dateRangeItemCounter] of [./functions] is not
    part of the sources at hand.  Section 4.5.  The spec's [add(n)] is split
    by the code into [counter.empty(!n)] and [counter.add(n)]; the fixed
    threshold of [isOver] is not documented and stays a parameter. *)
Module Counter.

Record t : Type := {
  window : MinMaxDates;
  calls : nat;
  empty : nat;
  total : nat;
  inRange : nat;
  outOfRange : nat
}.

Definition dateRangeItemCounter (date : MinMaxDates) : t :=
  {| window := date; calls := 0; empty := 0; total := 0; inRange := 0;
     outOfRange := 0 |}.

Definition add (n : nat) (c : t) : t :=
  {| window := window c; calls := S (calls c); empty := empty c;
     total := total c + n; inRange := inRange c;
     outOfRange := outOfRange c |}.

Definition set_empty (b : bool) (c : t) : t :=
  {| window := window c; calls := calls c;
     empty := if b then S (empty c) else empty c;
     total := total c; inRange := inRange c;
     outOfRange := outOfRange c |}.

(** [time(ts)]: newer than the window is rejected without counting, inside
    the window is accepted and resets the streak, older is rejected and
    extends the streak. *)
Definition time (ts : Z) (c : t) : bool * t :=
  if (maxDate (window c) <? ts)%Z then (false, c)
  else if (minDate (window c) <=? ts)%Z then
    (true,
     {| window := window c; calls := calls c; empty := empty c;
        total := total c; inRange := S (inRange c); outOfRange := 0 |})
  else
    (false,
     {| window := window c; calls := calls c; empty := empty c;
        total := total c; inRange := inRange c;
        outOfRange := S (outOfRange c) |}).

Definition isOver (threshold : nat) (c : t) : bool := threshold <? outOfRange c.

(** The failure heuristic every caller spells [calls && empty > total]. *)
Definition neverLoaded (c : t) : bool :=
  negb (calls c =? 0) && (total c <? empty c).

End Counter.

(** ** What the engine does to the outside world *)

Module FbComment.

Record t : Type := {
  date : Z;
  name : option string;
  profileUrl : option string;
  profilePicture : option string;
  text : option string;
  url : string
}.

End FbComment.

Module FbReview.

Record t : Type := {
  url : option string;
  date : Z;
  text : option string
}.

End FbReview.

(** The side effects of a flow, latest first. *)
Inductive Effect : Type :=
| Sleep (ms : nat)
| Postpone
| AddRequest (url uniqueKey : string)
| Add (comment : FbComment.t).

(** ** The upstream payload contract *)

Module Node.

Record t : Type := {
  id : string;
  created_time : Z;
  author_name : option string;
  author_url : option string;
  profile_picture_depth_0 : option string;
  profile_picture_depth_1_legacy : option string;
  body_text : option string;
  url : string
}.

End Node.

Module DisplayComments.

Record t : Type := {
  count : option nat;
  edges : list (option Node.t);
  has_next_page : option bool
}.

End DisplayComments.

(** A parsed JSON body.  Modelled from the spec: [isError] of [./functions]
    is not part of the sources at hand; it recognises the payload-level
    error marker. *)
Record FbGraphQl : Type := {
  error_marker : bool;
  display_comments : option DisplayComments.t
}.

Definition isError (json : FbGraphQl) : bool := error_marker json.

(** A response as the observers read it.  [json = None] stands for a body
    [res.json()] rejects. *)
Module HTTPResponse.

Record t : Type := {
  status : nat;
  url : string;
  content_type_json : bool;
  json : option FbGraphQl
}.

End HTTPResponse.

(** The caller-owned resumable state, [request.userData]. *)
Module UserData.

Record t : Type := {
  urls : option (list string);
  reviews : option (list (string * FbReview.t));
  comments : option (list (string * FbComment.t))
}.

End UserData.

(** ** The scroll driver and the idle-abort controller *)

(** The argument [scrollUntil] hands to [maybeStop]. *)
Module Scroll.

Record t : Type := {
  count : nat;
  bodyChanged : bool;
  scrollChanged : bool
}.

End Scroll.

(** What the environment does while [control.run] is pending. *)
Inductive Event (R C : Type) : Type :=
| Response (res : R)
| Cycle (c : C)
| PageClosed
| GateObserved
| IdleTimeout.
Arguments Response {R C} res.
Arguments Cycle {R C} c.
Arguments PageClosed {R C}.
Arguments GateObserved {R C}.
Arguments IdleTimeout {R C}.

Inductive RunEnd : Type :=
| RunCompleted
| RunThrew (e : Error)
| RunAborted.

(** Modelled from the spec: [scrollUntil] of [./functions] and the
    [DelayAbort] controller are not part of the sources at hand.  Section
    4.2: [run] races the protected work, which waits on the completion gate,
    against the idle timer; section 4.3: the driver calls [maybeStop] once
    per cycle until it answers stop.  [GateObserved] is the moment the
    pending [run] looks at the gate; a trace that ends leaves no further
    progress, so the idle timer fires unless the gate is settled. *)
Section ControlRun.

Context {St R C : Type}.
Variable gate : St -> Deferred.t.
Variable onResponse : St -> R -> St.
Variable onCycle : St -> C -> St.
Variable onClosed : St -> St.

Definition observe (s : St) : option RunEnd :=
  match gate s with
  | Deferred.Pending => None
  | Deferred.Resolved => Some RunCompleted
  | Deferred.Rejected e => Some (RunThrew e)
  end.

Fixpoint run (s : St) (evs : list (Event R C)) : St * RunEnd :=
  match evs with
  | [] =>
      match observe s with
      | Some r => (s, r)
      | None => (s, RunAborted)
      end
  | Response res :: rest => run (onResponse s res) rest
  | Cycle c :: rest => run (onCycle s c) rest
  | PageClosed :: rest => run (onClosed s) rest
  | GateObserved :: rest =>
      match observe s with
      | Some r => (s, r)
      | None => run s rest
      end
  | IdleTimeout :: _ => (s, RunAborted)
  end.

End ControlRun.

(** ** The caller's objects and [try]/[catch]/[finally] *)

(** What a call shares with its caller: the closure variables of the flow,
    whether its response observer is subscribed to the page ([page.on] and
    [page.off]), and [request.userData]. *)
Record Call (St : Type) : Type := {
  vars : St;
  listening : bool;
  userData : UserData.t
}.
Arguments vars {St} c.
Arguments listening {St} c.
Arguments userData {St} c.

Definition page_on {St : Type} (c : Call St) : Call St :=
  {| vars := vars c; listening := true; userData := userData c |}.

Definition page_off {St : Type} (c : Call St) : Call St :=
  {| vars := vars c; listening := false; userData := userData c |}.

Definition with_vars {St : Type} (x : St) (c : Call St) : Call St :=
  {| vars := x; listening := listening c; userData := userData c |}.

Definition with_userData {St : Type} (x : UserData.t) (c : Call St) : Call St :=
  {| vars := vars c; listening := listening c; userData := x |}.

(** A statement sequence that may throw, run on the closure variables. *)
Definition on_vars {St : Type} (f : St -> St * option Error) (c : Call St)
  : Call St * option Error :=
  let (s, thrown) := f (vars c) in (with_vars s c, thrown).

(** [try { body } catch (e) { handler } finally { finalizer }]: the handler
    sees the state the body left and answers what is thrown again; the
    finalizer runs whichever way the body and the handler ended. *)
Definition tryCatchFinally {W : Type} (body : W -> W * option Error)
  (handler : W -> Error -> option Error) (finalizer : W -> W) (w : W)
  : W * option Error :=
  let (w1, thrown) := body w in
  (finalizer w1,
   match thrown with
   | Some e => handler w1 e
   | None => None
   end).

(** * Post discovery: [getPostUrls] *)

Module Posts.

(** [ft.page_insights[page_id]]. *)
Record Insights : Type := {
  psn : option string;
  publish_time : option Z
}.

Record Ft : Type := {
  top_level_post_id : option string;
  story_attachment_style : option string;
  page_id : option string;
  page_insights : option (JsMap.t Insights)
}.

(** One entry of [pageSelectors.posts]. *)
Record Post : Type := {
  isPinned : bool;
  url : string;
  ft : option Ft
}.

(** What the flow reads of the [URL] that [storyFbToDesktopPermalink]
    returns: [toString()], [pathname] and the [story_fbid] parameter. *)
Record URL : Type := {
  href : string;
  pathname : string;
  story_fbid : option string
}.

(** The closure variables of one call.  [closed] is [page.isClosed()],
    [scrolling] tells that [scrollUntil] has not stopped yet. *)
Record State : Type := {
  urls : JsSet.t;
  finish : Deferred.t;
  counter : Counter.t;
  isReady : bool;
  rateLimitCount : nat;
  stillLoading : nat;
  lastCount : nat;
  closed : bool;
  scrolling : bool;
  effects : list Effect
}.

Definition with_urls (x : JsSet.t) (s : State) : State :=
  {| urls := x; finish := finish s; counter := counter s;
     isReady := isReady s; rateLimitCount := rateLimitCount s;
     stillLoading := stillLoading s; lastCount := lastCount s;
     closed := closed s; scrolling := scrolling s; effects := effects s |}.

Definition with_finish (x : Deferred.t) (s : State) : State :=
  {| urls := urls s; finish := x; counter := counter s;
     isReady := isReady s; rateLimitCount := rateLimitCount s;
     stillLoading := stillLoading s; lastCount := lastCount s;
     closed := closed s; scrolling := scrolling s; effects := effects s |}.

Definition with_counter (x : Counter.t) (s : State) : State :=
  {| urls := urls s; finish := finish s; counter := x;
     isReady := isReady s; rateLimitCount := rateLimitCount s;
     stillLoading := stillLoading s; lastCount := lastCount s;
     closed := closed s; scrolling := scrolling s; effects := effects s |}.

Definition with_isReady (x : bool) (s : State) : State :=
  {| urls := urls s; finish := finish s; counter := counter s;
     isReady := x; rateLimitCount := rateLimitCount s;
     stillLoading := stillLoading s; lastCount := lastCount s;
     closed := closed s; scrolling := scrolling s; effects := effects s |}.

Definition with_rateLimitCount (x : nat) (s : State) : State :=
  {| urls := urls s; finish := finish s; counter := counter s;
     isReady := isReady s; rateLimitCount := x;
     stillLoading := stillLoading s; lastCount := lastCount s;
     closed := closed s; scrolling := scrolling s; effects := effects s |}.

Definition with_stillLoading (x : nat) (s : State) : State :=
  {| urls := urls s; finish := finish s; counter := counter s;
     isReady := isReady s; rateLimitCount := rateLimitCount s;
     stillLoading := x; lastCount := lastCount s;
     closed := closed s; scrolling := scrolling s; effects := effects s |}.

Definition with_lastCount (x : nat) (s : State) : State :=
  {| urls := urls s; finish := finish s; counter := counter s;
     isReady := isReady s; rateLimitCount := rateLimitCount s;
     stillLoading := stillLoading s; lastCount := x;
     closed := closed s; scrolling := scrolling s; effects := effects s |}.

Definition with_closed (x : bool) (s : State) : State :=
  {| urls := urls s; finish := finish s; counter := counter s;
     isReady := isReady s; rateLimitCount := rateLimitCount s;
     stillLoading := stillLoading s; lastCount := lastCount s;
     closed := x; scrolling := scrolling s; effects := effects s |}.

Definition with_scrolling (x : bool) (s : State) : State :=
  {| urls := urls s; finish := finish s; counter := counter s;
     isReady := isReady s; rateLimitCount := rateLimitCount s;
     stillLoading := stillLoading s; lastCount := lastCount s;
     closed := closed s; scrolling := x; effects := effects s |}.

Definition effect (e : Effect) (s : State) : State :=
  {| urls := urls s; finish := finish s; counter := counter s;
     isReady := isReady s; rateLimitCount := rateLimitCount s;
     stillLoading := stillLoading s; lastCount := lastCount s;
     closed := closed s; scrolling := scrolling s;
     effects := e :: effects s |}.

Definition resolve (s : State) : State :=
  with_finish (Deferred.resolve (finish s)) s.

Definition reject (e : Error) (s : State) : State :=
  with_finish (Deferred.reject e (finish s)) s.

(** What one scroll cycle finds: the sample of [scrollUntil], the outcome of
    waiting for the loading marker and the outcome of
    [pageSelectors.posts]. *)
Record CycleObs : Type := {
  scroll : Scroll.t;
  loading : option Error;
  posts : Result (list Post)
}.

Section Flow.

(** The undocumented threshold of [counter.isOver], the constant of
    [./constants] and the permalink adapter of [./functions]. *)
Variable OVER_RANGE : nat.
Variable PSN_POST_TYPE_BLACKLIST : list string.
Variable storyFbToDesktopPermalink : string -> string -> string -> option URL.

(** The arguments of the call the closures capture. *)
Variable max : nat.
Variable date : MinMaxDates.
Variable username : string.

(** The guard of the [continue] in [getPosts]: the post id and the converted
    publish time of a post that passes it. *)
Definition postMeta (p : Post) : option (string * Z) :=
  match ft p with
  | None => None
  | Some f =>
      if match story_attachment_style f with
         | Some style => String.eqb style "scheduled_live_video_post"
         | None => false
         end
      then None
      else
        match top_level_post_id f, page_id f, page_insights f with
        | Some postId, Some pid, Some insights =>
            match JsMap.get pid insights with
            | Some i =>
                match psn i, publish_time i with
                | Some kind, Some t =>
                    if existsb (String.eqb kind) PSN_POST_TYPE_BLACKLIST
                    then None
                    else Some (postId, t)
                | _, _ => None
                end
            | None => None
            end
        | _, _, _ => None
        end
  end.

(** The branch taken once the quota is met or the counter is over. *)
Definition stopOrFail (s : State) : State :=
  if Counter.neverLoaded (counter s)
  then reject (InfoError "Failed to load posts" "getPostUrls") s
  else resolve s.

(** The classification of one post: pinned posts go through [date.compare]
    and leave the counter alone. *)
Definition classify (p : Post) (convertedDate : Z) (c : Counter.t)
  : bool * Counter.t :=
  if isPinned p then (compare date convertedDate, c)
  else Counter.time convertedDate c.

(** One iteration of the loop of [getPosts]; the flag tells that the
    function returned. *)
Definition forPost (p : Post) (s : State) : State * bool :=
  let s := effect Postpone s in
  if (max <=? JsSet.size (urls s)) || Counter.isOver OVER_RANGE (counter s)
  then (stopOrFail s, true)
  else
    match postMeta p with
    | None => (s, false)
    | Some (postId, convertedDate) =>
        let '(inDateRange, cnt) := classify p convertedDate (counter s) in
        let s := with_counter cnt s in
        match storyFbToDesktopPermalink (url p) username postId with
        | Some parsed =>
            if inDateRange && negb (JsSet.has (href parsed) (urls s))
            then
              let s := with_urls (JsSet.add (href parsed) (urls s)) s in
              if negb (includes "/groups/" (pathname parsed))
                 && negb (includes "/profile.php" (pathname parsed))
              then
                (effect (AddRequest (href parsed) ("post-" ++ postId)%string) s,
                 false)
              else (s, false)
            else (s, false)
        | None => (s, false)
        end
    end.

Fixpoint forPosts (l : list Post) (s : State) : State * bool :=
  match l with
  | [] => (s, false)
  | p :: rest =>
      let (s', returned) := forPost p s in
      if returned then (s', true) else forPosts rest s'
  end.

Definition isPostsError (e : Error) : bool :=
  match e with
  | InfoError _ namespace => String.eqb namespace "posts"
  | _ => false
  end.

Definition getPosts (r : Result (list Post)) (s : State) : State :=
  match r with
  | Ok l =>
      let n := List.length l in
      let s :=
        with_counter (Counter.add n (Counter.set_empty (n =? 0) (counter s))) s
      in
      let (s', returned) := forPosts l s in
      if returned then s' else effect (Sleep 1500) s'
  | Throw e =>
      effect (Sleep 1500) (if isPostsError e then reject e s else resolve s)
  end.

(** The login markers this observer looks for in the url of a 302. *)
Definition toLogin (url : string) : bool :=
  includes "login" url || includes "next=" url.

(** The condition [content-type includes json && isError(await res.json())];
    [None] when [res.json()] rejects. *)
Definition errored (res : HTTPResponse.t) : option bool :=
  if HTTPResponse.content_type_json res
  then option_map isError (HTTPResponse.json res)
  else Some false.

(** The [try] block of [interceptAjax]: the state it reaches and the error it
    throws, if any. *)
Definition interceptAjax_try (res : HTTPResponse.t) (s : State)
  : State * option Error :=
  match errored res with
  | None => (s, Some (OtherError "res.json"))
  | Some true =>
      let n := S (rateLimitCount s) in
      let s := with_rateLimitCount n s in
      if 20 <? n
      then (s, Some (InfoError "Rate limited" "getPostUrls"))
      else (effect (Sleep (n * 30)) s, None)
  | Some false =>
      let s := with_rateLimitCount 0 s in
      let status := HTTPResponse.status res in
      if negb (status =? 200) && negb (status =? 302)
      then (resolve s, None)
      else if (status =? 302) && toLogin (HTTPResponse.url res)
      then (s, Some (InfoError "Redirected to login" "getPostUrls"))
      else (s, None)
  end.

Definition interceptAjax (s : State) (res : HTTPResponse.t) : State :=
  let (s', thrown) := interceptAjax_try res s in
  match thrown with
  | Some e => if isReady s' then reject e s' else s'
  | None => s'
  end.

(** The value [maybeStop] returns when it falls through. *)
Definition shouldStop (c : CycleObs) (s : State) : bool :=
  (max <=? JsSet.size (urls s))
  || Counter.isOver OVER_RANGE (counter s)
  || ((20 <? Scroll.count (scroll c))
      && negb (Scroll.bodyChanged (scroll c))
      && negb (Scroll.scrollChanged (scroll c))).

Definition maybeStop (c : CycleObs) (s : State) : State * bool :=
  if closed s || Deferred.resolved (finish s) then (s, true)
  else
    match loading c with
    | None =>
        let s := with_stillLoading 0 s in
        let s := getPosts (posts c) s in
        let s :=
          if lastCount s <? JsSet.size (urls s)
          then with_lastCount (JsSet.size (urls s)) s
          else s
        in
        (s, shouldStop c s)
    | Some TimeoutError =>
        let s := with_stillLoading (S (stillLoading s)) s in
        if (JsSet.size (urls s) =? 0) && (15 <? stillLoading s)
        then (reject (InfoError "Posts are not loading" "posts") s, false)
        else (s, shouldStop c s)
    | Some _ => (s, shouldStop c s)
    end.

(** One cycle of [scrollUntil]. *)
Definition onCycle (s : State) (c : CycleObs) : State :=
  if scrolling s
  then
    let (s', stop) := maybeStop c s in
    if stop then with_scrolling false s' else s'
  else s.

Definition onClosed (s : State) : State := with_closed true s.

(** What the browser does during one call: the responses that arrive while
    the first [resetScroll] is awaited, whether that [page.evaluate] throws,
    and the events while [control.run] is pending. *)
Record Env : Type := {
  early : list HTTPResponse.t;
  resetScroll : option Error;
  events : list (Event HTTPResponse.t CycleObs)
}.

(** How a call ends: what it returns or throws, and the objects it shared
    with its caller. *)
Record Exit : Type := {
  result : Result nat;
  after : Call State
}.

Definition init (seed : option (list string)) : State :=
  {| urls := JsSet.of_list (match seed with Some l => l | None => [] end);
     finish := Deferred.Pending;
     counter := Counter.dateRangeItemCounter date;
     isReady := false; rateLimitCount := 0; stillLoading := 0;
     lastCount := 0; closed := false; scrolling := true; effects := [] |}.

(** The body of the outer [try]: the state it leaves and what it throws. *)
Definition attempt (env : Env) (s : State) : State * option Error :=
  let s := fold_left interceptAjax (early env) s in
  match resetScroll env with
  | Some e => (s, Some e)
  | None =>
      let s := with_isReady true s in
      match run finish interceptAjax onCycle onClosed s (events env) with
      | (s', RunCompleted) => (s', None)
      | (s', RunThrew e) => (s', Some e)
      | (s', RunAborted) => (s', Some AbortError)
      end
  end.

(** The [catch] clause. *)
Definition handler (c : Call State) (e : Error) : option Error :=
  match e with
  | AbortError =>
      if Counter.neverLoaded (counter (vars c))
      then Some (InfoError "Failed to load posts" "getPostUrls")
      else None
  | _ => Some e
  end.

Definition with_urls_saved (u : UserData.t) (l : list string) : UserData.t :=
  {| UserData.urls := Some l; UserData.reviews := UserData.reviews u;
     UserData.comments := UserData.comments u |}.

(** The [finally] clause. *)
Definition finalizer (c : Call State) : Call State :=
  let c := with_userData (with_urls_saved (userData c) (JsSet.values (urls (vars c)))) c in
  let c := with_vars (resolve (vars c)) c in
  page_off c.

End Flow.

(** [getPostUrls(page, { max, date, username, requestQueue, request })]. *)
Definition getPostUrls (OVER_RANGE : nat) (PSN_POST_TYPE_BLACKLIST : list string)
  (storyFbToDesktopPermalink : string -> string -> string -> option URL)
  (max : option nat) (date : MinMaxDates) (username : string)
  (request : UserData.t) (page_listening : bool) (env : Env) : Exit :=
  let c :=
    {| vars := init date (UserData.urls request);
       listening := page_listening; userData := request |}
  in
  match max with
  | None | Some 0 => {| result := Ok 0; after := c |}
  | Some max =>
      let c := page_on c in
      let (c', thrown) :=
        tryCatchFinally
          (on_vars
             (attempt OVER_RANGE PSN_POST_TYPE_BLACKLIST
                storyFbToDesktopPermalink max date username env))
          handler finalizer c
      in
      {| result :=
           match thrown with
           | Some e => Throw e
           | None => Ok (JsSet.size (urls (vars c')))
           end;
         after := c' |}
  end.

End Posts.

(** * Review discovery: [getReviews] *)

Module Reviews.

Record State : Type := {
  reviews : JsMap.t FbReview.t;
  finish : Deferred.t;
  isReady : bool;
  scrolling : bool;
  effects : list Effect
}.

Definition with_reviews (x : JsMap.t FbReview.t) (s : State) : State :=
  {| reviews := x; finish := finish s; isReady := isReady s;
     scrolling := scrolling s; effects := effects s |}.

Definition with_finish (x : Deferred.t) (s : State) : State :=
  {| reviews := reviews s; finish := x; isReady := isReady s;
     scrolling := scrolling s; effects := effects s |}.

Definition with_isReady (x : bool) (s : State) : State :=
  {| reviews := reviews s; finish := finish s; isReady := x;
     scrolling := scrolling s; effects := effects s |}.

Definition with_scrolling (x : bool) (s : State) : State :=
  {| reviews := reviews s; finish := finish s; isReady := isReady s;
     scrolling := x; effects := effects s |}.

Definition effect (e : Effect) (s : State) : State :=
  {| reviews := reviews s; finish := finish s; isReady := isReady s;
     scrolling := scrolling s; effects := e :: effects s |}.

Definition resolve (s : State) : State :=
  with_finish (Deferred.resolve (finish s)) s.

Definition reject (e : Error) (s : State) : State :=
  with_finish (Deferred.reject e (finish s)) s.

(** What one scroll cycle finds: the sample of [scrollUntil] and the outcome
    of [pageSelectors.reviews]. *)
Record CycleObs : Type := {
  scroll : Scroll.t;
  found : Result (list FbReview.t)
}.

(** What the flow reads of [pageSelectors.ld]. *)
Record Ld : Type := {
  ratingValue : option Z;
  ratingCount : option nat
}.

(** One entry of [processedReviews]. *)
Record Processed : Type := {
  review : FbReview.t;
  canonical : option string
}.

(** The value [getReviews] returns. *)
Record Summary : Type := {
  average : option Z;
  processed : list Processed;
  count : option nat
}.

Section Flow.

(** [storyFbToDesktopPermalink({ url })?.href]. *)
Variable storyFbToDesktopPermalink : string -> option string.

Variable max : nat.
Variable date : MinMaxDates.

(** One iteration of the loop of [getReviewsFromPage]; the flag tells that
    the loop was left by [break]. *)
Definition forReview (r : FbReview.t) (s : State) : State * bool :=
  let s :=
    match FbReview.url r with
    | Some u =>
        if negb (JsMap.has u (reviews s))
        then with_reviews (JsMap.set u r (reviews s)) (effect Postpone s)
        else s
    | None => s
    end
  in
  if max <=? JsMap.size (reviews s) then (resolve s, true) else (s, false).

Fixpoint forReviews (l : list FbReview.t) (s : State) : State * bool :=
  match l with
  | [] => (s, false)
  | r :: rest =>
      let (s', stop) := forReview r s in
      if stop then (s', true) else forReviews rest s'
  end.

(** [getReviewsFromPage]: a selector that throws leaves the state as it
    is. *)
Definition getReviewsFromPage (r : Result (list FbReview.t)) (s : State)
  : State * option Error :=
  match r with
  | Throw e => (s, Some e)
  | Ok l => (effect (Sleep 500) (fst (forReviews l s)), None)
  end.

Definition interceptAjax_try (res : HTTPResponse.t) (s : State)
  : State * option Error :=
  let status := HTTPResponse.status res in
  if negb (status =? 200) && negb (status =? 302)
  then (resolve s, None)
  else if status =? 302
  then (s, Some (InfoError "Redirected to login" "getReviews"))
  else (s, None).

Definition interceptAjax (s : State) (res : HTTPResponse.t) : State :=
  let (s', thrown) := interceptAjax_try res s in
  match thrown with
  | Some e => if isReady s' then reject e s' else s'
  | None => s'
  end.

Definition maybeStop (c : CycleObs) (s : State) : State * bool :=
  let (s', _) := getReviewsFromPage (found c) s in
  (s',
   (max <=? JsMap.size (reviews s'))
   || ((2 <? Scroll.count (scroll c))
       && negb (Scroll.scrollChanged (scroll c))
       && negb (Scroll.bodyChanged (scroll c)))).

Definition onCycle (s : State) (c : CycleObs) : State :=
  if scrolling s
  then
    let (s', stop) := maybeStop c s in
    if stop then with_scrolling false s' else s'
  else s.

(** The flow never asks whether the page is closed. *)
Definition onClosed (s : State) : State := s.

(** What the browser does during one call: the outcome of
    [pageSelectors.ld], the responses that arrive while the first scan is
    awaited, the outcome of the selector of that scan, and the events while
    [control.run] is pending. *)
Record Env : Type := {
  ld : Result Ld;
  early : list HTTPResponse.t;
  firstScan : Result (list FbReview.t);
  events : list (Event HTTPResponse.t CycleObs)
}.

Record Exit : Type := {
  result : Result (option Summary);
  after : Call State
}.

Definition init (seed : option (list (string * FbReview.t))) : State :=
  {| reviews := JsMap.of_entries (match seed with Some l => l | None => [] end);
     finish := Deferred.Pending; isReady := false; scrolling := true;
     effects := [] |}.

(** The statement between [page.on] and the [try]: the first
    [await getReviewsFromPage()]. *)
Definition scanFirst (env : Env) (s : State) : State * option Error :=
  getReviewsFromPage (firstScan env) (fold_left interceptAjax (early env) s).

(** The body of the [try]. *)
Definition attempt (env : Env) (s : State) : State * option Error :=
  let s := with_isReady true s in
  match run finish interceptAjax onCycle onClosed s (events env) with
  | (s', RunCompleted) => (s', None)
  | (s', RunThrew e) => (s', Some e)
  | (s', RunAborted) => (s', Some AbortError)
  end.

(** The [catch] clause. *)
Definition handler (c : Call State) (e : Error) : option Error :=
  match e with
  | AbortError => None
  | _ => Some e
  end.

Definition with_reviews_saved (u : UserData.t)
  (l : list (string * FbReview.t)) : UserData.t :=
  {| UserData.urls := UserData.urls u; UserData.reviews := Some l;
     UserData.comments := UserData.comments u |}.

(** The [finally] clause. *)
Definition finalizer (c : Call State) : Call State :=
  let c :=
    with_userData
      (with_reviews_saved (userData c) (JsMap.entries (reviews (vars c)))) c
  in
  let c := with_vars (resolve (vars c)) c in
  page_off c.

Definition process (s : FbReview.t) : Processed :=
  match FbReview.url s with
  | Some u =>
      if includes "story_fbid" u
      then
        {| review :=
             {| FbReview.url := storyFbToDesktopPermalink u;
                FbReview.date := FbReview.date s;
                FbReview.text := FbReview.text s |};
           canonical := Some u |}
      else {| review := s; canonical := None |}
  | None => {| review := s; canonical := None |}
  end.

Definition processedReviews (m : JsMap.t FbReview.t) : list Processed :=
  map process (filter (fun s => compare date (FbReview.date s)) (map snd m)).

End Flow.

(** [getReviews(page, { date, max, request })]. *)
Definition getReviews (storyFbToDesktopPermalink : string -> option string)
  (max : option nat) (date : MinMaxDates) (request : UserData.t)
  (page_listening : bool) (env : Env) : Exit :=
  let c :=
    {| vars := init (UserData.reviews request);
       listening := page_listening; userData := request |}
  in
  match max with
  | None | Some 0 => {| result := Ok None; after := c |}
  | Some max =>
      match ld env with
      | Throw e => {| result := Throw e; after := c |}
      | Ok l =>
          let c := page_on c in
          let (c1, thrown) := on_vars (scanFirst max env) c in
          match thrown with
          | Some e => {| result := Throw e; after := c1 |}
          | None =>
              let (c2, thrown) :=
                tryCatchFinally (on_vars (attempt max env)) handler finalizer c1
              in
              {| result :=
                   match thrown with
                   | Some e => Throw e
                   | None =>
                       Ok (Some
                             {| average := ratingValue l;
                                processed :=
                                  processedReviews storyFbToDesktopPermalink
                                    date (reviews (vars c2));
                                count := ratingCount l |})
                   end;
                 after := c2 |}
          end
      end
  end.

End Reviews.

(** * Comment discovery: [getPostComments] *)

Module Comments.

Inductive FbCommentsMode : Type :=
| RANKED_THREADED
| RECENT_ACTIVITY
| RANKED_UNFILTERED.

(** The closure variables of one call; [max] is reassigned by the observer.
    [seen] is a ghost variable: every [display_comments.count] the observer
    has read, latest first. *)
Record State : Type := {
  comments : JsMap.t FbComment.t;
  finish : Deferred.t;
  max : nat;
  count : nat;
  canStartAdding : bool;
  isReady : bool;
  rateLimitCount : nat;
  counter : Counter.t;
  closed : bool;
  clickTries : nat;
  lastCount : nat;
  scrolling : bool;
  effects : list Effect;
  seen : list nat
}.

Definition with_comments (x : JsMap.t FbComment.t) (s : State) : State :=
  {| comments := x; finish := finish s; max := max s; count := count s;
     canStartAdding := canStartAdding s; isReady := isReady s;
     rateLimitCount := rateLimitCount s; counter := counter s;
     closed := closed s; clickTries := clickTries s;
     lastCount := lastCount s; scrolling := scrolling s;
     effects := effects s; seen := seen s |}.

Definition with_finish (x : Deferred.t) (s : State) : State :=
  {| comments := comments s; finish := x; max := max s; count := count s;
     canStartAdding := canStartAdding s; isReady := isReady s;
     rateLimitCount := rateLimitCount s; counter := counter s;
     closed := closed s; clickTries := clickTries s;
     lastCount := lastCount s; scrolling := scrolling s;
     effects := effects s; seen := seen s |}.

Definition with_max (x : nat) (s : State) : State :=
  {| comments := comments s; finish := finish s; max := x; count := count s;
     canStartAdding := canStartAdding s; isReady := isReady s;
     rateLimitCount := rateLimitCount s; counter := counter s;
     closed := closed s; clickTries := clickTries s;
     lastCount := lastCount s; scrolling := scrolling s;
     effects := effects s; seen := seen s |}.

Definition with_count (x : nat) (s : State) : State :=
  {| comments := comments s; finish := finish s; max := max s; count := x;
     canStartAdding := canStartAdding s; isReady := isReady s;
     rateLimitCount := rateLimitCount s; counter := counter s;
     closed := closed s; clickTries := clickTries s;
     lastCount := lastCount s; scrolling := scrolling s;
     effects := effects s; seen := seen s |}.

Definition with_canStartAdding (x : bool) (s : State) : State :=
  {| comments := comments s; finish := finish s; max := max s;
     count := count s; canStartAdding := x; isReady := isReady s;
     rateLimitCount := rateLimitCount s; counter := counter s;
     closed := closed s; clickTries := clickTries s;
     lastCount := lastCount s; scrolling := scrolling s;
     effects := effects s; seen := seen s |}.

Definition with_isReady (x : bool) (s : State) : State :=
  {| comments := comments s; finish := finish s; max := max s;
     count := count s; canStartAdding := canStartAdding s; isReady := x;
     rateLimitCount := rateLimitCount s; counter := counter s;
     closed := closed s; clickTries := clickTries s;
     lastCount := lastCount s; scrolling := scrolling s;
     effects := effects s; seen := seen s |}.

Definition with_rateLimitCount (x : nat) (s : State) : State :=
  {| comments := comments s; finish := finish s; max := max s;
     count := count s; canStartAdding := canStartAdding s;
     isReady := isReady s; rateLimitCount := x; counter := counter s;
     closed := closed s; clickTries := clickTries s;
     lastCount := lastCount s; scrolling := scrolling s;
     effects := effects s; seen := seen s |}.

Definition with_counter (x : Counter.t) (s : State) : State :=
  {| comments := comments s; finish := finish s; max := max s;
     count := count s; canStartAdding := canStartAdding s;
     isReady := isReady s; rateLimitCount := rateLimitCount s; counter := x;
     closed := closed s; clickTries := clickTries s;
     lastCount := lastCount s; scrolling := scrolling s;
     effects := effects s; seen := seen s |}.

Definition with_closed (x : bool) (s : State) : State :=
  {| comments := comments s; finish := finish s; max := max s;
     count := count s; canStartAdding := canStartAdding s;
     isReady := isReady s; rateLimitCount := rateLimitCount s;
     counter := counter s; closed := x; clickTries := clickTries s;
     lastCount := lastCount s; scrolling := scrolling s;
     effects := effects s; seen := seen s |}.

Definition with_clickTries (x : nat) (s : State) : State :=
  {| comments := comments s; finish := finish s; max := max s;
     count := count s; canStartAdding := canStartAdding s;
     isReady := isReady s; rateLimitCount := rateLimitCount s;
     counter := counter s; closed := closed s; clickTries := x;
     lastCount := lastCount s; scrolling := scrolling s;
     effects := effects s; seen := seen s |}.

Definition with_lastCount (x : nat) (s : State) : State :=
  {| comments := comments s; finish := finish s; max := max s;
     count := count s; canStartAdding := canStartAdding s;
     isReady := isReady s; rateLimitCount := rateLimitCount s;
     counter := counter s; closed := closed s; clickTries := clickTries s;
     lastCount := x; scrolling := scrolling s;
     effects := effects s; seen := seen s |}.

Definition with_scrolling (x : bool) (s : State) : State :=
  {| comments := comments s; finish := finish s; max := max s;
     count := count s; canStartAdding := canStartAdding s;
     isReady := isReady s; rateLimitCount := rateLimitCount s;
     counter := counter s; closed := closed s; clickTries := clickTries s;
     lastCount := lastCount s; scrolling := x;
     effects := effects s; seen := seen s |}.

Definition effect (e : Effect) (s : State) : State :=
  {| comments := comments s; finish := finish s; max := max s;
     count := count s; canStartAdding := canStartAdding s;
     isReady := isReady s; rateLimitCount := rateLimitCount s;
     counter := counter s; closed := closed s; clickTries := clickTries s;
     lastCount := lastCount s; scrolling := scrolling s;
     effects := e :: effects s; seen := seen s |}.

Definition note (n : nat) (s : State) : State :=
  {| comments := comments s; finish := finish s; max := max s;
     count := count s; canStartAdding := canStartAdding s;
     isReady := isReady s; rateLimitCount := rateLimitCount s;
     counter := counter s; closed := closed s; clickTries := clickTries s;
     lastCount := lastCount s; scrolling := scrolling s;
     effects := effects s; seen := n :: seen s |}.

Definition resolve (s : State) : State :=
  with_finish (Deferred.resolve (finish s)) s.

Definition reject (e : Error) (s : State) : State :=
  with_finish (Deferred.reject e (finish s)) s.

(** How a block of statements ends: it falls through, it leaves by [break] or
    [return], or it throws. *)
Inductive Step : Type :=
| Continue
| Break
| Thrown (e : Error).

(** What one scroll cycle finds: the sample of [scrollUntil] and the number
    of load-more links clicked, unless that evaluation throws. *)
Record CycleObs : Type := {
  scroll : Scroll.t;
  clicked : Result nat
}.

(** The comment built from a node of the payload. *)
Definition toComment (p : Node.t) : FbComment.t :=
  {| FbComment.date := Node.created_time p;
     FbComment.name := Node.author_name p;
     FbComment.profileUrl := Node.author_url p;
     FbComment.profilePicture :=
       orElse (Node.profile_picture_depth_0 p)
         (Node.profile_picture_depth_1_legacy p);
     FbComment.text := Node.body_text p;
     FbComment.url := Node.url p |}.

(** [data.edges.map((s) => s.node).filter((s) => s)]. *)
Fixpoint nodes (edges : list (option Node.t)) : list Node.t :=
  match edges with
  | [] => []
  | Some p :: rest => p :: nodes rest
  | None :: rest => nodes rest
  end.

Section Flow.

(** The undocumented threshold of [counter.isOver] and the consumer
    callback [add], which answers the error it throws, if any. *)
Variable OVER_RANGE : nat.
Variable add : FbComment.t -> option Error.

(** One iteration of the loop over the nodes of a payload. *)
Definition forNode (p : Node.t) (s : State) : State * Step :=
  if negb (JsMap.has (Node.id p) (comments s))
  then
    if max s <=? JsMap.size (comments s) then (s, Break)
    else
      let (accepted, cnt) := Counter.time (Node.created_time p) (counter s) in
      let s := with_counter cnt s in
      if accepted
      then
        let comment := toComment p in
        let s := with_comments (JsMap.set (Node.id p) comment (comments s)) s in
        let s := effect (Add comment) s in
        match add comment with
        | Some e => (s, Thrown e)
        | None => (s, Continue)
        end
      else (s, Continue)
  else (s, Continue).

Fixpoint forNodes (l : list Node.t) (s : State) : State * option Error :=
  match l with
  | [] => (s, None)
  | p :: rest =>
      match forNode p s with
      | (s', Continue) => forNodes rest s'
      | (s', Break) => (s', None)
      | (s', Thrown e) => (s', Some e)
      end
  end.

(** The update of [count] and [max] from [data.count]. *)
Definition readCount (data : DisplayComments.t) (s : State) : State :=
  match DisplayComments.count data with
  | Some n =>
      let s := note n s in
      if count s <? n
      then
        let s := with_count n s in
        if n <? max s then with_max n s else s
      else s
  | None => s
  end.

(** The block guarded by [data.edges?.length > 0]. *)
Definition mergeEdges (data : DisplayComments.t) (s : State)
  : State * option Error :=
  let len := List.length (DisplayComments.edges data) in
  if 0 <? len
  then
    let s := with_counter (Counter.add len (counter s)) s in
    let s := effect Postpone s in
    forNodes (nodes (DisplayComments.edges data)) s
  else (s, None).

(** [hasNext === false || comments.size >= max || counter.isOver()]. *)
Definition lastPage (data : DisplayComments.t) (s : State) : bool :=
  match DisplayComments.has_next_page data with
  | Some false => true
  | _ => false
  end
  || (max s <=? JsMap.size (comments s))
  || Counter.isOver OVER_RANGE (counter s).

(** The block guarded by [if (data)]. *)
Definition onData (data : DisplayComments.t) (s : State)
  : State * option Error :=
  let (s, thrown) := mergeEdges data (readCount data s) in
  match thrown with
  | Some e => (s, Some e)
  | None => if lastPage data s then (resolve s, None) else (s, None)
  end.

(** The block guarded by [res.url().includes('api/graphql/') &&
    canStartAdding]. *)
Definition onPayload (res : HTTPResponse.t) (s : State) : State * Step :=
  if includes "api/graphql/" (HTTPResponse.url res) && canStartAdding s
  then
    match HTTPResponse.json res with
    | None => (s, Continue)
    | Some json =>
        if negb (isError json)
        then
          let s := with_rateLimitCount 0 s in
          match display_comments json with
          | Some data =>
              let (s', thrown) := onData data s in
              (s', match thrown with Some e => Thrown e | None => Continue end)
          | None => (s, Continue)
          end
        else
          let n := S (rateLimitCount s) in
          let s := with_rateLimitCount n s in
          if 20 <? n
          then (s, Thrown (InfoError "Rate limited" "getPostComments"))
          else (effect (Sleep (n * 30)) s, Break)
    end
  else (s, Continue).

(** The login markers this observer looks for in the url of a 302. *)
Definition toLogin (url : string) : bool :=
  includes "next=" url || includes "/login" url.

(** The classification of the transport status. *)
Definition onStatus (res : HTTPResponse.t) (s : State) : State * option Error :=
  let status := HTTPResponse.status res in
  if negb (status =? 200) && negb (status =? 302)
  then (resolve s, None)
  else if (status =? 302) && toLogin (HTTPResponse.url res)
  then (s, Some (InfoError "Redirected to login" "getPostComments"))
  else (s, None).

Definition interceptGrapQL_try (res : HTTPResponse.t) (s : State)
  : State * option Error :=
  if closed s || Deferred.resolved (finish s) then (s, None)
  else
    match onPayload res s with
    | (s', Continue) => onStatus res s'
    | (s', Break) => (s', None)
    | (s', Thrown e) => (s', Some e)
    end.

Definition interceptGrapQL (s : State) (res : HTTPResponse.t) : State :=
  let (s', thrown) := interceptGrapQL_try res s in
  match thrown with
  | Some e => if isReady s' then reject e s' else s'
  | None => s'
  end.

(** The value [maybeStop] returns when it falls through. *)
Definition shouldStop (s : State) : bool :=
  (max s <=? JsMap.size (comments s)) || Counter.isOver OVER_RANGE (counter s).

Definition maybeStop (c : CycleObs) (s : State) : State * bool :=
  if closed s || Deferred.resolved (finish s) then (s, true)
  else
    match clicked c with
    | Throw _ => (s, shouldStop s)
    | Ok n =>
        let s := if n =? 0 then with_clickTries (S (clickTries s)) s else s in
        let s := effect (Sleep 500) s in
        if closed s || Deferred.resolved (finish s)
           || (negb (Scroll.bodyChanged (scroll c)) && (3 <? clickTries s))
        then (s, true)
        else
          let inRange := Counter.inRange (counter s) in
          let s :=
            if negb (lastCount s =? inRange) then with_lastCount inRange s
            else s
          in
          (s, shouldStop s)
    end.

Definition onCycle (s : State) (c : CycleObs) : State :=
  if scrolling s
  then
    let (s', stop) := maybeStop c s in
    if stop then with_scrolling false s' else s'
  else s.

Definition onClosed (s : State) : State := with_closed true s.

(** What the browser does during one call: the responses that arrive while
    the load-comments clicks are awaited, whether the link was found, whether
    the ordering menu opened, whether choosing the mode throws, the
    responses that arrive from then until the observer is armed, and the
    events while [control.run] is pending. *)
Record Env : Type := {
  early : list HTTPResponse.t;
  loadCommentsClicked : Result bool;
  commentOrdering : Result bool;
  chooseMode : option Error;
  settling : list HTTPResponse.t;
  events : list (Event HTTPResponse.t CycleObs)
}.

Record Exit : Type := {
  result : Result nat;
  after : Call State
}.

Definition init (max : nat) (date : MinMaxDates)
  (seed : option (list (string * FbComment.t))) : State :=
  {| comments := JsMap.of_entries (match seed with Some l => l | None => [] end);
     finish := Deferred.Pending; max := max; count := 0;
     canStartAdding := false; isReady := false; rateLimitCount := 0;
     counter := Counter.dateRangeItemCounter date; closed := false;
     clickTries := 0; lastCount := 0; scrolling := true; effects := [];
     seen := [] |}.

(** From [isReady = true] to the end of [control.run]. *)
Definition protected (env : Env) (s : State) : State * option Error :=
  let s := fold_left interceptGrapQL (settling env) s in
  let s := with_isReady true s in
  match run finish interceptGrapQL onCycle onClosed s (events env) with
  | (s', RunCompleted) => (s', None)
  | (s', RunThrew e) => (s', Some e)
  | (s', RunAborted) => (s', Some AbortError)
  end.

(** The body of the [try]. *)
Definition attempt (mode : FbCommentsMode) (env : Env) (s : State)
  : State * option Error :=
  let s :=
    match mode with
    | RANKED_UNFILTERED | RANKED_THREADED => with_canStartAdding true s
    | RECENT_ACTIVITY => s
    end
  in
  let s := fold_left interceptGrapQL (early env) s in
  match loadCommentsClicked env with
  | Throw e => (s, Some e)
  | Ok false => (s, None)
  | Ok true =>
      let s := effect Postpone s in
      match mode with
      | RANKED_THREADED => protected env (with_canStartAdding true s)
      | _ =>
          match commentOrdering env with
          | Throw e => (s, Some e)
          | Ok true =>
              let s := with_canStartAdding true s in
              match chooseMode env with
              | Some e => (s, Some e)
              | None => protected env s
              end
          | Ok false => protected env (with_canStartAdding true s)
          end
      end
  end.

(** The [catch] clause. *)
Definition handler (c : Call State) (e : Error) : option Error :=
  match e with
  | AbortError => None
  | _ => Some e
  end.

Definition with_comments_saved (u : UserData.t)
  (l : list (string * FbComment.t)) : UserData.t :=
  {| UserData.urls := UserData.urls u; UserData.reviews := UserData.reviews u;
     UserData.comments := Some l |}.

(** The [finally] clause. *)
Definition finalizer (c : Call State) : Call State :=
  let c :=
    with_userData
      (with_comments_saved (userData c) (JsMap.entries (comments (vars c)))) c
  in
  let c := page_off c in
  with_vars (resolve (vars c)) c.

(** [getPostComments(page, { date, max, mode, request, add })]. *)
Definition getPostComments (max : option nat) (date : MinMaxDates)
  (mode : option FbCommentsMode) (request : UserData.t)
  (page_listening : bool) (env : Env) : Exit :=
  let mode := match mode with Some m => m | None => RANKED_THREADED end in
  match max with
  | None | Some 0 =>
      {| result := Ok 0;
         after :=
           {| vars := init 0 date (UserData.comments request);
              listening := page_listening; userData := request |} |}
  | Some max =>
      let c :=
        {| vars := init max date (UserData.comments request);
           listening := page_listening; userData := request |}
      in
      let c := page_on c in
      let (c', thrown) :=
        tryCatchFinally (on_vars (attempt mode env)) handler finalizer c
      in
      {| result :=
           match thrown with
           | Some e => Throw e
           | None => Ok (count (vars c'))
           end;
         after := c' |}
  end.

End Flow.

End Comments.

(** * Vocabulary of the properties *)

(** What every step of the comment flow keeps, for a call with quota [M] and
    window [date] that started from the accumulator [kept]: the quota, the
    monotone tightening of [max], a counter that never saw an empty batch,
    the running count as the largest count read, the stored values, and that
    whatever was added lies in the window. *)
Record CommentsInv (M : nat) (date : MinMaxDates) (kept : JsMap.t FbComment.t)
  (s : Comments.State) : Prop := {
  inv_size : JsMap.size (Comments.comments s) <= M;
  inv_max : Comments.max s <= M;
  inv_empty : Counter.empty (Comments.counter s) = 0;
  inv_window : Counter.window (Comments.counter s) = date;
  inv_count : Comments.count s = list_max (Comments.seen s);
  inv_kept : forall k v,
    JsMap.get k kept = Some v -> JsMap.get k (Comments.comments s) = Some v;
  inv_added : forall k c,
    JsMap.get k (Comments.comments s) = Some c ->
    JsMap.get k kept = Some c \/ compare date (FbComment.date c) = true
}.




(** * Concrete calls *)

Module Scenario.

Definition window : MinMaxDates := {| minDate := 100; maxDate := 200 |}.

Definition fresh : UserData.t :=
  {| UserData.urls := None; UserData.reviews := None;
     UserData.comments := None |}.

(** ** Responses *)

Definition errorJson : HTTPResponse.t :=
  {| HTTPResponse.status := 200;
     HTTPResponse.url := "https://m.facebook.com/api/graphql/";
     HTTPResponse.content_type_json := true;
     HTTPResponse.json :=
       Some {| error_marker := true; display_comments := None |} |}.



Definition notFound : HTTPResponse.t :=
  {| HTTPResponse.status := 404;
     HTTPResponse.url := "https://m.facebook.com/missing";
     HTTPResponse.content_type_json := false;
     HTTPResponse.json := None |}.


(** ** Reviews *)

Definition noPermalink : string -> option string := fun _ => None.

Definition review (u : string) (d : Z) : FbReview.t :=
  {| FbReview.url := Some u; FbReview.date := d; FbReview.text := None |}.

Definition selectorNotFound : Error :=
  InfoError "reviews page selector not found" "reviews".

Definition noLd : Reviews.Ld :=
  {| Reviews.ratingValue := None; Reviews.ratingCount := None |}.

(** The selector of the first scan finds nothing and throws. *)
Definition firstScanThrows : Reviews.Env :=
  {| Reviews.ld := Ok noLd; Reviews.early := [];
     Reviews.firstScan := Throw selectorNotFound; Reviews.events := [] |}.

(** A retried visit whose snapshot already holds the quota of one review,
    and a page that now lists a newer review first. *)
Definition fullSeed : UserData.t :=
  {| UserData.urls := None;
     UserData.reviews := Some [("a", review "a" 150)];
     UserData.comments := None |}.

Definition oneMore : Reviews.Env :=
  {| Reviews.ld := Ok noLd; Reviews.early := [];
     Reviews.firstScan := Ok [review "b" 160; review "a" 150];
     Reviews.events := [] |}.


(** ** Posts *)

Definition OVER_RANGE : nat := 2.

Definition PSN_POST_TYPE_BLACKLIST : list string := [].

Definition storyFbToDesktopPermalink (url username postId : string)
  : option Posts.URL :=
  Some {| Posts.href := url; Posts.pathname := url;
          Posts.story_fbid := None |}.

Definition post (url : string) (t : Z) (pinned : bool) : Posts.Post :=
  {| Posts.isPinned := pinned; Posts.url := url;
     Posts.ft :=
       Some {| Posts.top_level_post_id := Some "1";
               Posts.story_attachment_style := None;
               Posts.page_id := Some "p";
               Posts.page_insights :=
                 Some [("p", {| Posts.psn := Some "EntStatusCreationStory";
                                Posts.publish_time := Some t |})] |} |}.

Definition postsStart : Posts.State := Posts.init window None.

Definition postsArmed : Posts.State := Posts.with_isReady true postsStart.

Definition postsSettled : Posts.State := Posts.resolve postsArmed.




(** ** Comments *)

Definition add (c : FbComment.t) : option Error := None.

Definition node (id : string) (t : Z) : Node.t :=
  {| Node.id := id; Node.created_time := t; Node.author_name := Some "A";
     Node.author_url := None; Node.profile_picture_depth_0 := None;
     Node.profile_picture_depth_1_legacy := None; Node.body_text := Some "hi";
     Node.url := "https://www.facebook.com/c" |}.


(** A payload that reports a running count and carries no comment. *)
Definition counted (n : nat) : HTTPResponse.t :=
  {| HTTPResponse.status := 200;
     HTTPResponse.url := "https://m.facebook.com/api/graphql/";
     HTTPResponse.content_type_json := true;
     HTTPResponse.json :=
       Some {| error_marker := false;
               display_comments :=
                 Some {| DisplayComments.count := Some n;
                         DisplayComments.edges := [];
                         DisplayComments.has_next_page := Some true |} |} |}.

(** Three counts are reported while the load-comments link is looked for,
    and the link is never found. *)
Definition countsReported : Comments.Env :=
  {| Comments.early := [counted 3; counted 7; counted 2];
     Comments.loadCommentsClicked := Ok false;
     Comments.commentOrdering := Ok false; Comments.chooseMode := None;
     Comments.settling := []; Comments.events := [] |}.



Definition commentsStart : Comments.State :=
  Comments.with_canStartAdding true (Comments.init 5 window None).

Definition commentsArmed : Comments.State :=
  Comments.with_isReady true commentsStart.

End Scenario.

(** * Listings, search results and post statistics *)

(** [getPagesFromListing]: the links of the listing as a [Set]. *)
Definition getPagesFromListing (links : Result (list string))
  : Result JsSet.t :=
  match links with
  | Ok hrefs => Ok (JsSet.of_list hrefs)
  | Throw e => Throw e
  end.

(** [getPagesFromSearch], an async generator. *)
Module Search.


(** The variables of the generator, with the urls it has yielded so far,
    first first. *)
Record State : Type := {
  errorCount : nat;
  existing : JsSet.t;
  searchLimit : Z;
  yielded : list string
}.

Definition init (searchLimit : Z) : State :=
  {| errorCount := 0; existing := []; searchLimit := searchLimit;
     yielded := [] |}.








End Search.

(** [getPostInfoFromScript]. *)
Module PostStats.










End PostStats.

(** * Vocabulary of further properties *)



(** The urls a flow handed to [requestQueue.addRequest], latest first. *)
Fixpoint enqueued (effects : list Effect) : list string :=
  match effects with
  | [] => []
  | AddRequest url _ :: rest => url :: enqueued rest
  | _ :: rest => enqueued rest
  end.

(** What every step of post discovery keeps, for a call that started from
    the accumulator [kept]: the accumulator has no duplicate and still holds
    [kept], and the urls handed to the request queue are distinct urls of the
    accumulator that [kept] did not hold. *)
Record PostsInv (kept : JsSet.t) (s : Posts.State) : Prop := {
  posts_nodup : NoDup (Posts.urls s);
  posts_kept : forall u, In u kept -> In u (Posts.urls s);
  posts_enqueued_nodup : NoDup (enqueued (Posts.effects s));
  posts_enqueued_new : forall u,
    In u (enqueued (Posts.effects s)) -> In u (Posts.urls s) /\ ~ In u kept
}.

(** A scroll cycle of post discovery whose wait for the loading marker timed
    out and whose sample does not end the scroll by itself. *)
Definition postsTimedOut (c : Posts.CycleObs) : Prop :=
  Posts.loading c = Some TimeoutError
  /\ (20 <? Scroll.count (Posts.scroll c))
     && negb (Scroll.bodyChanged (Posts.scroll c))
     && negb (Scroll.scrollChanged (Posts.scroll c)) = false.

(** Post discovery is under way on a page that has given nothing yet: the
    page is open, the gate unsettled, the driver scrolling, the accumulator
    empty and the counter not over. *)
Definition postsWaiting (OVER_RANGE : nat) (s : Posts.State) : Prop :=
  Posts.closed s = false
  /\ Posts.finish s = Deferred.Pending
  /\ Posts.scrolling s = true
  /\ Posts.urls s = []
  /\ Counter.isOver OVER_RANGE (Posts.counter s) = false.

(** The comments a flow handed to the consumer callback [add], latest
    first. *)
Fixpoint consumed (effects : list Effect) : list FbComment.t :=
  match effects with
  | [] => []
  | Add c :: rest => c :: consumed rest
  | _ :: rest => consumed rest
  end.

(** The quota of comment discovery after the counts read so far, first
    first: the requested maximum, lowered to the first positive count. *)
Definition tightened (M : nat) (counts : list nat) : nat :=
  match find (fun n => 0 <? n) counts with
  | Some c => Nat.min M c
  | None => M
  end.

(** What every step of comment discovery keeps besides [CommentsInv], for a
    call with requested maximum [M] that started from the accumulator
    [kept]: distinct keys, one call of [add] for each entry gained, every
    comment handed to [add] stored, and the quota lowered to the first
    positive count read and to nothing else. *)
Record CommentsKeeps (M : nat) (kept : JsMap.t FbComment.t)
  (s : Comments.State) : Prop := {
  keeps_keys : NoDup (map fst (Comments.comments s));
  keeps_size :
    JsMap.size (Comments.comments s)
    = JsMap.size kept + List.length (consumed (Comments.effects s));
  keeps_stored : forall c,
    In c (consumed (Comments.effects s)) ->
    exists k, JsMap.get k (Comments.comments s) = Some c;
  keeps_count : Comments.count s = list_max (Comments.seen s);
  keeps_max : Comments.max s = tightened M (rev (Comments.seen s));
  keeps_tight : Comments.count s = 0 \/ Comments.max s <= Comments.count s;
  keeps_positive : 0 < Comments.max s
}.

(** A scroll cycle of comment discovery that found no load-more link to
    click and saw the page unchanged. *)
Definition commentsNoClick (c : Comments.CycleObs) : Prop :=
  Comments.clicked c = Ok 0
  /\ Scroll.bodyChanged (Comments.scroll c) = false.

(** Comment discovery is under way: the page is open, the gate unsettled,
    the driver scrolling, and neither the quota nor the counter asks to
    stop. *)
Definition commentsScrolling (OVER_RANGE : nat) (s : Comments.State) : Prop :=
  Comments.closed s = false
  /\ Comments.finish s = Deferred.Pending
  /\ Comments.scrolling s = true
  /\ Comments.shouldStop OVER_RANGE s = false.

(** How often a flow postponed the idle abort. *)
Fixpoint postponed (effects : list Effect) : nat :=
  match effects with
  | [] => 0
  | Postpone :: rest => S (postponed rest)
  | _ :: rest => postponed rest
  end.

(** What every step of review discovery keeps, for a call that started from
    the accumulator [kept]: distinct keys, the values of [kept], every other
    review stored under its own url, and one postponement of the idle abort
    for each entry gained. *)
Record ReviewsKeeps (kept : JsMap.t FbReview.t) (s : Reviews.State) : Prop := {
  reviews_keys : NoDup (map fst (Reviews.reviews s));
  reviews_kept : forall k v,
    JsMap.get k kept = Some v -> JsMap.get k (Reviews.reviews s) = Some v;
  reviews_url : forall k r,
    JsMap.get k (Reviews.reviews s) = Some r ->
    JsMap.get k kept = Some r \/ FbReview.url r = Some k;
  reviews_postponed :
    JsMap.size (Reviews.reviews s)
    = JsMap.size kept + postponed (Reviews.effects s)
}.

(** The bound review discovery keeps on its accumulator: [B] while the
    driver scrolls, one more once it has stopped. *)
Definition reviewsBound (B : nat) (s : Reviews.State) : Prop :=
  (Reviews.scrolling s = true -> JsMap.size (Reviews.reviews s) <= B)
  /\ JsMap.size (Reviews.reviews s) <= S B.


(** * Further concrete calls *)

Module Cases.





(** A visit that finds two posts in one scroll cycle and then goes idle, and
    the retry of that visit on a page that shows the same two posts and one
    more. *)
Definition twoPosts : Posts.CycleObs :=
  {| Posts.scroll :=
       {| Scroll.count := 1; Scroll.bodyChanged := true;
          Scroll.scrollChanged := true |};
     Posts.loading := None;
     Posts.posts :=
       Ok [Scenario.post "https://m.facebook.com/story/1" 150 false;
           Scenario.post "https://m.facebook.com/story/2" 140 false] |}.

Definition threePosts : Posts.CycleObs :=
  {| Posts.scroll :=
       {| Scroll.count := 1; Scroll.bodyChanged := true;
          Scroll.scrollChanged := true |};
     Posts.loading := None;
     Posts.posts :=
       Ok [Scenario.post "https://m.facebook.com/story/1" 150 false;
           Scenario.post "https://m.facebook.com/story/2" 140 false;
           Scenario.post "https://m.facebook.com/story/3" 130 false] |}.

Definition firstVisit : Posts.Env :=
  {| Posts.early := []; Posts.resetScroll := None;
     Posts.events := [Cycle twoPosts; IdleTimeout] |}.

Definition secondVisit : Posts.Env :=
  {| Posts.early := []; Posts.resetScroll := None;
     Posts.events := [Cycle threePosts; IdleTimeout] |}.

(** The call of the first visit. *)
Definition firstCall : Posts.Exit :=
  Posts.getPostUrls Scenario.OVER_RANGE Scenario.PSN_POST_TYPE_BLACKLIST
    Scenario.storyFbToDesktopPermalink (Some 5) Scenario.window "page"
    Scenario.fresh false firstVisit.

(** The retry, on the userData the first visit left. *)
Definition secondCall : Posts.Exit :=
  Posts.getPostUrls Scenario.OVER_RANGE Scenario.PSN_POST_TYPE_BLACKLIST
    Scenario.storyFbToDesktopPermalink (Some 5) Scenario.window "page"
    (userData (Posts.after firstCall)) (listening (Posts.after firstCall))
    secondVisit.

(** A scroll cycle whose wait for the loading marker times out. *)
Definition timeoutCycle : Posts.CycleObs :=
  {| Posts.scroll :=
       {| Scroll.count := 3; Scroll.bodyChanged := false;
          Scroll.scrollChanged := false |};
     Posts.loading := Some TimeoutError; Posts.posts := Ok [] |}.

(** A scroll cycle of comment discovery with nothing to click. *)
Definition noClick : Comments.CycleObs :=
  {| Comments.scroll :=
       {| Scroll.count := 1; Scroll.bodyChanged := false;
          Scroll.scrollChanged := false |};
     Comments.clicked := Ok 0 |}.

(** A visit of a post whose comments arrive in one payload of two, and the
    retry of that visit, in which the payload holds one comment more. *)
Definition payload (count : nat) (edges : list (option Node.t))
  : HTTPResponse.t :=
  {| HTTPResponse.status := 200;
     HTTPResponse.url := "https://m.facebook.com/api/graphql/";
     HTTPResponse.content_type_json := true;
     HTTPResponse.json :=
       Some {| error_marker := false;
               display_comments :=
                 Some {| DisplayComments.count := Some count;
                         DisplayComments.edges := edges;
                         DisplayComments.has_next_page := Some true |} |} |}.

Definition firstComments : Comments.Env :=
  {| Comments.early := []; Comments.loadCommentsClicked := Ok true;
     Comments.commentOrdering := Ok false; Comments.chooseMode := None;
     Comments.settling := [];
     Comments.events :=
       [Response
          (payload 9 [Some (Scenario.node "c1" 150);
                      Some (Scenario.node "c2" 140)]);
        IdleTimeout] |}.


Definition firstCommentsCall : Comments.Exit :=
  Comments.getPostComments Scenario.OVER_RANGE Scenario.add (Some 20)
    Scenario.window None Scenario.fresh false firstComments.


End Cases.

(** * Properties *)

(** * Properties of the containers *)

Ltac break_match :=
  match goal with
  | |- context [match ?x with _ => _ end] => destruct x eqn:?
  end.

Lemma JsSet_add_present (x : string) (s : JsSet.t) :
  JsSet.has x s = true -> JsSet.add x s = s.
Proof. intros H. unfold JsSet.add. rewrite H. reflexivity. Qed.

Lemma JsSet_size_add_le (x : string) (s : JsSet.t) :
  JsSet.size (JsSet.add x s) <= S (JsSet.size s).
Proof.
  unfold JsSet.add, JsSet.size. destruct (JsSet.has x s).
  - lia.
  - rewrite length_app. simpl. lia.
Qed.

Lemma JsSet_size_of_list_le (l : list string) :
  JsSet.size (JsSet.of_list l) <= List.length l.
Proof.
  unfold JsSet.of_list.
  assert (G : forall acc,
             JsSet.size (fold_left (fun s x => JsSet.add x s) l acc)
             <= JsSet.size acc + List.length l).
  { induction l as [|x l IH]; intros acc; simpl.
    - lia.
    - specialize (IH (JsSet.add x acc)).
      pose proof (JsSet_size_add_le x acc). lia. }
  apply (G []).
Qed.

Lemma JsMap_get_set {V : Type} (k k' : string) (v : V) (m : JsMap.t V) :
  JsMap.get k' (JsMap.set k v m)
  = if String.eqb k' k then Some v else JsMap.get k' m.
Proof.
  induction m as [|[k0 v0] m IH]; simpl.
  - reflexivity.
  - destruct (String.eqb k k0) eqn:E; simpl.
    + apply String.eqb_eq in E. subst k0.
      destruct (String.eqb k' k); reflexivity.
    + destruct (String.eqb k' k0) eqn:E0.
      * apply String.eqb_eq in E0. subst k0.
        rewrite String.eqb_sym in E. rewrite E. reflexivity.
      * exact IH.
Qed.

Lemma JsMap_has_set {V : Type} (k : string) (v : V) (m : JsMap.t V) :
  JsMap.has k (JsMap.set k v m) = true.
Proof.
  unfold JsMap.has. rewrite JsMap_get_set, String.eqb_refl. reflexivity.
Qed.

Lemma JsMap_size_set_le {V : Type} (k : string) (v : V) (m : JsMap.t V) :
  JsMap.size (JsMap.set k v m) <= S (JsMap.size m).
Proof.
  unfold JsMap.size.
  induction m as [|[k0 v0] m IH]; simpl.
  - lia.
  - destruct (String.eqb k k0); simpl; lia.
Qed.

Lemma JsMap_size_set_absent {V : Type} (k : string) (v : V) (m : JsMap.t V) :
  JsMap.has k m = false -> JsMap.size (JsMap.set k v m) = S (JsMap.size m).
Proof.
  unfold JsMap.size, JsMap.has.
  induction m as [|[k0 v0] m IH]; simpl; intros H.
  - reflexivity.
  - destruct (String.eqb k k0); [discriminate|].
    simpl. rewrite IH by exact H. reflexivity.
Qed.

Lemma JsMap_size_of_entries_le {V : Type} (l : list (string * V)) :
  JsMap.size (JsMap.of_entries l) <= List.length l.
Proof.
  unfold JsMap.of_entries.
  assert (G : forall acc : JsMap.t V,
             JsMap.size
               (fold_left (fun m kv => JsMap.set (fst kv) (snd kv) m) l acc)
             <= JsMap.size acc + List.length l).
  { induction l as [|x l IH]; intros acc; simpl.
    - lia.
    - specialize (IH (JsMap.set (fst x) (snd x) acc)).
      pose proof (JsMap_size_set_le (fst x) (snd x) acc). lia. }
  apply (G []).
Qed.

(** * Properties of the shared control primitives *)

Lemma resolve_settles (g : Deferred.t) :
  Deferred.resolved (Deferred.resolve g) = true.
Proof. destruct g; reflexivity. Qed.

Lemma resolve_settled (g : Deferred.t) :
  Deferred.resolved g = true -> Deferred.resolve g = g.
Proof. destruct g; simpl; intros; congruence. Qed.

Lemma reject_settled (e : Error) (g : Deferred.t) :
  Deferred.resolved g = true -> Deferred.reject e g = g.
Proof. destruct g; simpl; intros; congruence. Qed.

(** The classifier accepts exactly the instants of the window. *)
Lemma time_accepts (ts : Z) (c : Counter.t) :
  fst (Counter.time ts c) = compare (Counter.window c) ts.
Proof.
  unfold Counter.time, compare.
  destruct (maxDate (Counter.window c) <? ts)%Z eqn:E1;
    destruct (minDate (Counter.window c) <=? ts)%Z eqn:E2;
    destruct (ts <=? maxDate (Counter.window c))%Z eqn:E3;
    simpl; try reflexivity; lia.
Qed.

Lemma time_window (ts : Z) (c : Counter.t) :
  Counter.window (snd (Counter.time ts c)) = Counter.window c.
Proof.
  unfold Counter.time.
  repeat break_match; reflexivity.
Qed.

Lemma time_empty (ts : Z) (c : Counter.t) :
  Counter.empty (snd (Counter.time ts c)) = Counter.empty c.
Proof.
  unfold Counter.time.
  repeat break_match; reflexivity.
Qed.

Section ControlRunFacts.

Context {St R C : Type}.
Variable gate : St -> Deferred.t.
Variable onResponse : St -> R -> St.
Variable onCycle : St -> C -> St.
Variable onClosed : St -> St.

(** Whatever holds initially and is kept by every step holds when [run]
    ends, whichever way it ends. *)
Lemma run_invariant (P : St -> Prop) :
  (forall s res, P s -> P (onResponse s res)) ->
  (forall s c, P s -> P (onCycle s c)) ->
  (forall s, P s -> P (onClosed s)) ->
  forall evs s, P s -> P (fst (run gate onResponse onCycle onClosed s evs)).
Proof.
  intros HR HC HX evs.
  induction evs as [|ev rest IH]; intros s Hs; simpl.
  - destruct (observe gate s); exact Hs.
  - destruct ev; auto.
    destruct (observe gate s); simpl; auto.
Qed.

(** A fold of the observer over a list of responses keeps what every firing
    keeps. *)
Lemma fold_invariant (P : St -> Prop) :
  (forall s res, P s -> P (onResponse s res)) ->
  forall l s, P s -> P (fold_left onResponse l s).
Proof.
  intros HR l. induction l as [|x l IH]; intros s Hs; simpl; auto.
Qed.

End ControlRunFacts.

(** * Post discovery *)

Section PostsFacts.

Variable OVER_RANGE : nat.
Variable PSN_POST_TYPE_BLACKLIST : list string.
Variable storyFbToDesktopPermalink : string -> string -> string -> option Posts.URL.
Variable max : nat.
Variable date : MinMaxDates.
Variable username : string.

Local Abbreviation forPost :=
  (Posts.forPost OVER_RANGE PSN_POST_TYPE_BLACKLIST storyFbToDesktopPermalink
     max date username).
Local Abbreviation forPosts :=
  (Posts.forPosts OVER_RANGE PSN_POST_TYPE_BLACKLIST storyFbToDesktopPermalink
     max date username).
Local Abbreviation getPosts :=
  (Posts.getPosts OVER_RANGE PSN_POST_TYPE_BLACKLIST storyFbToDesktopPermalink
     max date username).
Local Abbreviation maybeStop :=
  (Posts.maybeStop OVER_RANGE PSN_POST_TYPE_BLACKLIST storyFbToDesktopPermalink
     max date username).
Local Abbreviation onCycle :=
  (Posts.onCycle OVER_RANGE PSN_POST_TYPE_BLACKLIST storyFbToDesktopPermalink
     max date username).
Local Abbreviation attempt :=
  (Posts.attempt OVER_RANGE PSN_POST_TYPE_BLACKLIST storyFbToDesktopPermalink
     max date username).

(** The observer never touches the accumulator. *)
Lemma posts_interceptAjax_try_urls res s :
  Posts.urls (fst (Posts.interceptAjax_try res s)) = Posts.urls s.
Proof.
  unfold Posts.interceptAjax_try.
  repeat break_match; reflexivity.
Qed.

Lemma posts_interceptAjax_urls s res :
  Posts.urls (Posts.interceptAjax s res) = Posts.urls s.
Proof.
  unfold Posts.interceptAjax.
  pose proof (posts_interceptAjax_try_urls res s) as H.
  destruct (Posts.interceptAjax_try res s) as [s' [e|]]; simpl in *; auto.
  destruct (Posts.isReady s'); simpl; exact H.
Qed.

Lemma posts_stopOrFail_urls s :
  Posts.urls (Posts.stopOrFail s) = Posts.urls s.
Proof. unfold Posts.stopOrFail. break_match; reflexivity. Qed.

Lemma posts_forPost_cap p s :
  JsSet.size (Posts.urls s) <= max ->
  JsSet.size (Posts.urls (fst (forPost p s))) <= max.
Proof.
  intros H. unfold Posts.forPost. simpl.
  destruct ((max <=? JsSet.size (Posts.urls s))
            || Counter.isOver OVER_RANGE (Posts.counter s)) eqn:E.
  - simpl. rewrite posts_stopOrFail_urls. exact H.
  - apply orb_false_iff in E. destruct E as [E _].
    apply Nat.leb_gt in E.
    repeat break_match; simpl; try exact H;
      pose proof (JsSet_size_add_le (Posts.href u) (Posts.urls s)); lia.
Qed.

Lemma posts_forPosts_cap l : forall s,
  JsSet.size (Posts.urls s) <= max ->
  JsSet.size (Posts.urls (fst (forPosts l s))) <= max.
Proof.
  induction l as [|p l IH]; intros s H; simpl.
  - exact H.
  - pose proof (posts_forPost_cap p s H) as Hp.
    destruct (forPost p s) as [s' returned]. simpl in Hp.
    destruct returned; simpl; auto.
Qed.

Lemma posts_getPosts_cap r s :
  JsSet.size (Posts.urls s) <= max ->
  JsSet.size (Posts.urls (getPosts r s)) <= max.
Proof.
  intros H. unfold Posts.getPosts. destruct r as [l|e].
  - match goal with
    | |- context [forPosts l ?s0] =>
        pose proof (posts_forPosts_cap l s0 H) as Hl;
        destruct (forPosts l s0) as [s' returned]
    end.
    simpl in Hl. destruct returned; simpl; exact Hl.
  - destruct (Posts.isPostsError e); simpl; exact H.
Qed.

Lemma posts_maybeStop_cap c s :
  JsSet.size (Posts.urls s) <= max ->
  JsSet.size (Posts.urls (fst (maybeStop c s))) <= max.
Proof.
  intros H. unfold Posts.maybeStop.
  destruct (Posts.closed s || Deferred.resolved (Posts.finish s)); simpl; auto.
  destruct (Posts.loading c) as [e|].
  - destruct e; simpl; auto.
    break_match; simpl; exact H.
  - simpl.
    pose proof (posts_getPosts_cap (Posts.posts c) (Posts.with_stillLoading 0 s) H).
    break_match; simpl; assumption.
Qed.

Lemma posts_onCycle_cap s c :
  JsSet.size (Posts.urls s) <= max ->
  JsSet.size (Posts.urls (onCycle s c)) <= max.
Proof.
  intros H. unfold Posts.onCycle. destruct (Posts.scrolling s); auto.
  pose proof (posts_maybeStop_cap c s H) as Hm.
  destruct (maybeStop c s) as [s' stop]. simpl in Hm.
  destruct stop; simpl; exact Hm.
Qed.

(** The quota of post discovery: an accumulator seeded within the quota stays
    within it through the whole [try] block. *)
Lemma posts_attempt_cap env s :
  JsSet.size (Posts.urls s) <= max ->
  JsSet.size (Posts.urls (fst (attempt env s))) <= max.
Proof.
  intros H. unfold Posts.attempt.
  assert (H1 : JsSet.size
                 (Posts.urls (fold_left Posts.interceptAjax (Posts.early env) s))
               <= max).
  { apply (fold_invariant Posts.interceptAjax
             (fun s => JsSet.size (Posts.urls s) <= max)); auto.
    intros s0 res H0. rewrite posts_interceptAjax_urls. exact H0. }
  destruct (Posts.resetScroll env); simpl; auto.
  match goal with
  | |- context [run ?g ?r ?c ?x ?s0 ?evs] =>
      pose proof (run_invariant g r c x
                    (fun s => JsSet.size (Posts.urls s) <= max)) as Hrun;
      specialize (Hrun
                    (fun s res H0 =>
                       eq_ind_r (fun u => JsSet.size u <= max) H0
                         (posts_interceptAjax_urls s res))
                    (fun s c0 H0 => posts_onCycle_cap s c0 H0)
                    (fun s H0 => H0) evs s0 H1);
      destruct (run g r c x s0 evs) as [s' r']
  end.
  simpl in Hrun. destruct r'; simpl; exact Hrun.
Qed.

End PostsFacts.

Section PostsItems.

Variable OVER_RANGE : nat.
Variable PSN_POST_TYPE_BLACKLIST : list string.
Variable storyFbToDesktopPermalink : string -> string -> string -> option Posts.URL.
Variable max : nat.
Variable date : MinMaxDates.
Variable username : string.

Local Abbreviation forPost :=
  (Posts.forPost OVER_RANGE PSN_POST_TYPE_BLACKLIST storyFbToDesktopPermalink
     max date username).

(** One iteration of [getPosts] either leaves the accumulator alone or adds
    the permalink of its post, and the latter only for a new permalink of a
    post the classification accepted. *)
Lemma posts_forPost_urls p s :
  Posts.urls (fst (forPost p s)) = Posts.urls s
  \/ exists postId t parsed,
       Posts.postMeta PSN_POST_TYPE_BLACKLIST p = Some (postId, t)
       /\ storyFbToDesktopPermalink (Posts.url p) username postId = Some parsed
       /\ JsSet.has (Posts.href parsed) (Posts.urls s) = false
       /\ fst (Posts.classify date p t (Posts.counter s)) = true
       /\ Posts.urls (fst (forPost p s))
          = JsSet.add (Posts.href parsed) (Posts.urls s).
Proof.
  unfold Posts.forPost. simpl.
  destruct ((max <=? JsSet.size (Posts.urls s))
            || Counter.isOver OVER_RANGE (Posts.counter s)).
  { left. simpl. unfold Posts.stopOrFail. break_match; reflexivity. }
  destruct (Posts.postMeta PSN_POST_TYPE_BLACKLIST p) as [[postId t]|];
    [|left; reflexivity].
  destruct (Posts.classify date p t (Posts.counter s)) as [inDateRange cnt] eqn:Ec.
  destruct (storyFbToDesktopPermalink (Posts.url p) username postId)
    as [parsed|] eqn:Es; [|left; reflexivity].
  simpl.
  destruct inDateRange; simpl; [|left; reflexivity].
  destruct (JsSet.has (Posts.href parsed) (Posts.urls s)) eqn:Eh; simpl;
    [left; reflexivity|].
  right. exists postId, t, parsed.
  repeat split; auto.
  - rewrite Ec. reflexivity.
  - break_match; reflexivity.
Qed.

End PostsItems.

(** ** The rate-limit backoff of the post observer *)







(** * Comment discovery *)

Section CommentsFacts.

Variable OVER_RANGE : nat.
Variable add : FbComment.t -> option Error.
Variable M : nat.
Variable date : MinMaxDates.
Variable kept : JsMap.t FbComment.t.

Local Abbreviation Inv := (CommentsInv M date kept).

(** The invariant only reads the accumulator, the quota, the counter, the
    running count and the counts read. *)
Lemma CommentsInv_ext s s' :
  Comments.comments s' = Comments.comments s ->
  Comments.max s' = Comments.max s ->
  Comments.counter s' = Comments.counter s ->
  Comments.count s' = Comments.count s ->
  Comments.seen s' = Comments.seen s ->
  Inv s -> Inv s'.
Proof.
  intros E1 E2 E3 E4 E5 [H1 H2 H3 H4 H5 H6 H7].
  constructor; rewrite ?E1, ?E2, ?E3, ?E4, ?E5; auto.
Qed.

Ltac frame s := apply (CommentsInv_ext s); try reflexivity; auto.

Lemma comments_forNode_inv p s :
  Inv s -> Inv (fst (Comments.forNode add p s)).
Proof.
  intros HI. unfold Comments.forNode.
  destruct (negb (JsMap.has (Node.id p) (Comments.comments s))) eqn:Eh;
    [|exact HI].
  apply negb_true_iff in Eh.
  destruct (Comments.max s <=? JsMap.size (Comments.comments s)) eqn:Em;
    [exact HI|].
  apply Nat.leb_gt in Em.
  pose proof (time_accepts (Node.created_time p) (Comments.counter s)) as Ha.
  pose proof (time_window (Node.created_time p) (Comments.counter s)) as Hw.
  pose proof (time_empty (Node.created_time p) (Comments.counter s)) as He.
  destruct (Counter.time (Node.created_time p) (Comments.counter s))
    as [accepted cnt].
  simpl in Ha, Hw, He.
  destruct HI as [H1 H2 H3 H4 H5 H6 H7].
  assert (HI' : Inv (Comments.with_counter cnt s)).
  { constructor; simpl; auto; congruence. }
  destruct accepted; [|exact HI'].
  assert (G : Inv (Comments.effect (Add (Comments.toComment p))
                     (Comments.with_comments
                        (JsMap.set (Node.id p) (Comments.toComment p)
                           (Comments.comments s))
                        (Comments.with_counter cnt s)))).
  { constructor; simpl; auto; try congruence.
    - rewrite JsMap_size_set_absent by exact Eh. lia.
    - intros k v Hk. rewrite JsMap_get_set.
      destruct (String.eqb k (Node.id p)) eqn:Ek; auto.
      apply String.eqb_eq in Ek. subst k.
      apply H6 in Hk. unfold JsMap.has in Eh. rewrite Hk in Eh. discriminate.
    - intros k c. rewrite JsMap_get_set.
      destruct (String.eqb k (Node.id p)) eqn:Ek; auto.
      intros Hc. inversion Hc; subst c. right. simpl.
      rewrite <- H4. symmetry. exact Ha. }
  destruct (add (Comments.toComment p)); exact G.
Qed.

Lemma comments_forNodes_inv l : forall s,
  Inv s -> Inv (fst (Comments.forNodes add l s)).
Proof.
  induction l as [|p l IH]; intros s HI; simpl.
  - exact HI.
  - pose proof (comments_forNode_inv p s HI) as Hp.
    destruct (Comments.forNode add p s) as [s' [| |e]]; simpl in *; auto.
Qed.

Lemma comments_readCount_inv data s :
  Inv s -> Inv (Comments.readCount data s).
Proof.
  intros [H1 H2 H3 H4 H5 H6 H7]. unfold Comments.readCount.
  destruct (DisplayComments.count data) as [n|]; simpl.
  - destruct (Comments.count s <? n) eqn:En.
    + apply Nat.ltb_lt in En.
      destruct (n <? Comments.max s) eqn:Ex.
      * apply Nat.ltb_lt in Ex.
        constructor; simpl; auto; lia.
      * constructor; simpl; auto; lia.
    + apply Nat.ltb_ge in En.
      constructor; simpl; auto; lia.
  - constructor; auto.
Qed.

Lemma comments_mergeEdges_inv data s :
  Inv s -> Inv (fst (Comments.mergeEdges add data s)).
Proof.
  intros HI. unfold Comments.mergeEdges.
  destruct (0 <? List.length (DisplayComments.edges data)); [|exact HI].
  apply comments_forNodes_inv.
  destruct HI as [H1 H2 H3 H4 H5 H6 H7].
  constructor; simpl; auto.
Qed.

Lemma comments_onData_inv data s :
  Inv s -> Inv (fst (Comments.onData OVER_RANGE add data s)).
Proof.
  intros HI. unfold Comments.onData.
  pose proof (comments_mergeEdges_inv data _ (comments_readCount_inv data s HI))
    as Hm.
  destruct (Comments.mergeEdges add data (Comments.readCount data s))
    as [s1 [e|]]; simpl in *; auto.
  destruct (Comments.lastPage OVER_RANGE data s1); simpl; auto.
  frame s1.
Qed.

Lemma comments_onPayload_inv res s :
  Inv s -> Inv (fst (Comments.onPayload OVER_RANGE add res s)).
Proof.
  intros HI. unfold Comments.onPayload.
  destruct (includes "api/graphql/" (HTTPResponse.url res)
            && Comments.canStartAdding s); [|exact HI].
  destruct (HTTPResponse.json res) as [json|]; [|exact HI].
  destruct (negb (isError json)).
  - assert (H0 : Inv (Comments.with_rateLimitCount 0 s)) by (frame s).
    destruct (display_comments json) as [data|]; [|exact H0].
    pose proof (comments_onData_inv data _ H0) as Hd.
    destruct (Comments.onData OVER_RANGE add data
                (Comments.with_rateLimitCount 0 s)) as [s1 thrown].
    exact Hd.
  - destruct (20 <? S (Comments.rateLimitCount s)); simpl; frame s.
Qed.

Lemma comments_onStatus_inv res s :
  Inv s -> Inv (fst (Comments.onStatus res s)).
Proof.
  intros HI. unfold Comments.onStatus.
  repeat break_match; simpl; auto; frame s.
Qed.

Lemma comments_interceptGrapQL_inv s res :
  Inv s -> Inv (Comments.interceptGrapQL OVER_RANGE add s res).
Proof.
  intros HI.
  assert (Ht : Inv (fst (Comments.interceptGrapQL_try OVER_RANGE add res s))).
  { unfold Comments.interceptGrapQL_try.
    destruct (Comments.closed s || Deferred.resolved (Comments.finish s));
      [exact HI|].
    pose proof (comments_onPayload_inv res s HI) as Hp.
    destruct (Comments.onPayload OVER_RANGE add res s) as [s1 [| |e]];
      simpl in *; auto.
    apply comments_onStatus_inv. exact Hp. }
  unfold Comments.interceptGrapQL.
  destruct (Comments.interceptGrapQL_try OVER_RANGE add res s) as [s1 [e|]];
    simpl in *; auto.
  destruct (Comments.isReady s1); auto. frame s1.
Qed.

Lemma comments_onCycle_inv s c :
  Inv s -> Inv (Comments.onCycle OVER_RANGE s c).
Proof.
  intros HI. unfold Comments.onCycle.
  destruct (Comments.scrolling s); [|exact HI].
  assert (Hm : Inv (fst (Comments.maybeStop OVER_RANGE c s))).
  { unfold Comments.maybeStop.
    repeat break_match; simpl; auto; frame s. }
  destruct (Comments.maybeStop OVER_RANGE c s) as [s1 stop]; simpl in *.
  destruct stop; auto. frame s1.
Qed.

Lemma comments_fold_inv l s :
  Inv s -> Inv (fold_left (Comments.interceptGrapQL OVER_RANGE add) l s).
Proof.
  apply (fold_invariant (Comments.interceptGrapQL OVER_RANGE add) Inv).
  intros s0 res. apply comments_interceptGrapQL_inv.
Qed.

Lemma comments_protected_inv env s :
  Inv s -> Inv (fst (Comments.protected OVER_RANGE add env s)).
Proof.
  intros HI. unfold Comments.protected.
  match goal with
  | |- context [run ?g ?r ?c ?x ?s0 ?evs] =>
      assert (Hr : Inv (fst (run g r c x s0 evs)));
      [|destruct (run g r c x s0 evs) as [s1 [|e|]]; exact Hr]
  end.
  apply run_invariant.
  - intros s0 res. apply comments_interceptGrapQL_inv.
  - intros s0 c. apply comments_onCycle_inv.
  - intros s0 H0. unfold Comments.onClosed. frame s0.
  - pose proof (comments_fold_inv (Comments.settling env) s HI) as Hf.
    frame (fold_left (Comments.interceptGrapQL OVER_RANGE add)
             (Comments.settling env) s).
Qed.

(** Every step of the [try] block of [getPostComments] keeps the
    invariant. *)
Lemma comments_attempt_inv mode env s :
  Inv s -> Inv (fst (Comments.attempt OVER_RANGE add mode env s)).
Proof.
  intros HI. unfold Comments.attempt.
  match goal with
  | |- context [fold_left _ (Comments.early env) ?s0] =>
      assert (H0 : Inv s0) by (destruct mode; auto; frame s);
      pose proof (comments_fold_inv (Comments.early env) s0 H0) as Hf;
      set (s1 := fold_left (Comments.interceptGrapQL OVER_RANGE add)
                   (Comments.early env) s0) in *;
      clearbody s1
  end.
  destruct (Comments.loadCommentsClicked env) as [[|]|e]; simpl; auto.
  assert (H1 : Inv (Comments.with_canStartAdding true
                      (Comments.effect Postpone s1))) by (frame s1).
  assert (H2 : Inv (Comments.effect Postpone s1)) by (frame s1).
  destruct mode; try (apply comments_protected_inv; exact H1).
  - destruct (Comments.commentOrdering env) as [[|]|e]; simpl; auto.
    + destruct (Comments.chooseMode env); simpl; auto.
      apply comments_protected_inv; exact H1.
    + apply comments_protected_inv; exact H1.
  - destruct (Comments.commentOrdering env) as [[|]|e]; simpl; auto.
    + destruct (Comments.chooseMode env); simpl; auto.
      apply comments_protected_inv; exact H1.
    + apply comments_protected_inv; exact H1.
Qed.

End CommentsFacts.

(** ** The guard and the rate-limit backoff of the comment observer *)

Section CommentsObserver.

Variable OVER_RANGE : nat.
Variable add : FbComment.t -> option Error.

Local Abbreviation interceptGrapQL := (Comments.interceptGrapQL OVER_RANGE add).
Local Abbreviation interceptGrapQL_try :=
  (Comments.interceptGrapQL_try OVER_RANGE add).
Local Abbreviation onPayload := (Comments.onPayload OVER_RANGE add).

(** A response that arrives once the gate is settled or the page is closed
    leaves every variable of the call as it is. *)
Lemma comments_guard s res :
  Comments.closed s || Deferred.resolved (Comments.finish s) = true ->
  interceptGrapQL s res = s.
Proof.
  intros H. unfold Comments.interceptGrapQL, Comments.interceptGrapQL_try.
  rewrite H. reflexivity.
Qed.










End CommentsObserver.

(** * Review discovery *)

Lemma reviews_forReview_present max r s u :
  FbReview.url r = Some u ->
  JsMap.has u (Reviews.reviews s) = true ->
  Reviews.reviews (fst (Reviews.forReview max r s)) = Reviews.reviews s.
Proof.
  intros Hu Hh. unfold Reviews.forReview. rewrite Hu, Hh. simpl.
  break_match; reflexivity.
Qed.



(** * How the calls end *)

(** [getPostUrls] with a positive [max] always runs its [finally]: the
    accumulator is written to [request.userData.urls] and the observer is
    unsubscribed, whatever the call returns or throws. *)
Lemma getPostUrls_exit OVER_RANGE BLACKLIST story n date username request
  listening0 env :
  let x :=
    Posts.getPostUrls OVER_RANGE BLACKLIST story (Some (S n)) date username
      request listening0 env
  in
  listening (Posts.after x) = false
  /\ UserData.urls (userData (Posts.after x))
     = Some (JsSet.values (Posts.urls (vars (Posts.after x)))).
Proof.
  unfold Posts.getPostUrls, tryCatchFinally, on_vars. simpl.
  destruct (Posts.attempt OVER_RANGE BLACKLIST story (S n) date username env
              (Posts.init date (UserData.urls request))) as [s1 thrown].
  simpl. split; reflexivity.
Qed.

(** The same for [getPostComments]. *)
Lemma getPostComments_exit OVER_RANGE add n date mode request listening0 env :
  let x :=
    Comments.getPostComments OVER_RANGE add (Some (S n)) date mode request
      listening0 env
  in
  listening (Comments.after x) = false
  /\ UserData.comments (userData (Comments.after x))
     = Some (JsMap.entries (Comments.comments (vars (Comments.after x)))).
Proof.
  unfold Comments.getPostComments, tryCatchFinally, on_vars. simpl.
  match goal with
  | |- context [Comments.attempt ?a ?b ?c ?d ?e] =>
      destruct (Comments.attempt a b c d e) as [s1 thrown]
  end.
  simpl. split; reflexivity.
Qed.

(** [getReviews] runs its [finally] once the first scan has returned. *)
Lemma getReviews_exit story n date request listening0 env l s1 :
  Reviews.ld env = Ok l ->
  Reviews.scanFirst (S n) env (Reviews.init (UserData.reviews request))
  = (s1, None) ->
  let x := Reviews.getReviews story (Some (S n)) date request listening0 env in
  listening (Reviews.after x) = false
  /\ UserData.reviews (userData (Reviews.after x))
     = Some (JsMap.entries (Reviews.reviews (vars (Reviews.after x)))).
Proof.
  intros Hl Hs. unfold Reviews.getReviews, tryCatchFinally, on_vars. simpl.
  rewrite Hl, Hs. simpl.
  destruct (Reviews.attempt (S n) env s1) as [s2 thrown].
  simpl. split; reflexivity.
Qed.

(** The quota of post discovery holds for the accumulator and for what is
    persisted. *)
Lemma getPostUrls_quota OVER_RANGE BLACKLIST story n date username request
  listening0 env :
  List.length (match UserData.urls request with Some l => l | None => [] end)
  <= S n ->
  let x :=
    Posts.getPostUrls OVER_RANGE BLACKLIST story (Some (S n)) date username
      request listening0 env
  in
  JsSet.size (Posts.urls (vars (Posts.after x))) <= S n
  /\ exists l,
       UserData.urls (userData (Posts.after x)) = Some l
       /\ List.length l <= S n.
Proof.
  intros Hseed.
  assert (H0 : JsSet.size (Posts.urls (Posts.init date (UserData.urls request)))
               <= S n).
  { simpl. etransitivity; [apply JsSet_size_of_list_le|exact Hseed]. }
  pose proof (posts_attempt_cap OVER_RANGE BLACKLIST story (S n) date username
                env _ H0) as Hc.
  unfold Posts.getPostUrls, tryCatchFinally, on_vars. simpl.
  destruct (Posts.attempt OVER_RANGE BLACKLIST story (S n) date username env
              (Posts.init date (UserData.urls request))) as [s1 thrown].
  simpl in *. split; [exact Hc|].
  eexists. split; [reflexivity|exact Hc].
Qed.

Lemma comments_init_inv M n date seed :
  JsMap.size (Comments.comments (Comments.init n date seed)) <= M ->
  n <= M ->
  CommentsInv M date (Comments.comments (Comments.init n date seed))
    (Comments.init n date seed).
Proof.
  intros H1 H2. constructor; simpl; auto.
Qed.

(** What the [try] block of [getPostComments] leaves, for any quota [M] that
    bounds the requested maximum and the seed. *)
Lemma getPostComments_inv OVER_RANGE add n date mode request listening0 env M :
  JsMap.size (Comments.comments (Comments.init (S n) date
                                   (UserData.comments request))) <= M ->
  S n <= M ->
  CommentsInv M date
    (Comments.comments (Comments.init (S n) date (UserData.comments request)))
    (vars (Comments.after
             (Comments.getPostComments OVER_RANGE add (Some (S n)) date mode
                request listening0 env))).
Proof.
  intros H1 H2.
  pose proof (comments_init_inv M (S n) date (UserData.comments request) H1 H2)
    as H0.
  unfold Comments.getPostComments, tryCatchFinally, on_vars. simpl vars.
  match goal with
  | |- context [Comments.attempt ?a ?b ?c ?d ?e] =>
      pose proof (comments_attempt_inv a b M date _ c d e H0) as Ha;
      destruct (Comments.attempt a b c d e) as [s1 thrown]
  end.
  simpl in *.
  apply (CommentsInv_ext M date _ s1); try reflexivity. exact Ha.
Qed.

(** The quota of comment discovery holds for the accumulator and for what is
    persisted. *)
Lemma getPostComments_quota OVER_RANGE add n date mode request listening0 env :
  List.length
    (match UserData.comments request with Some l => l | None => [] end)
  <= S n ->
  let x :=
    Comments.getPostComments OVER_RANGE add (Some (S n)) date mode request
      listening0 env
  in
  JsMap.size (Comments.comments (vars (Comments.after x))) <= S n
  /\ exists l,
       UserData.comments (userData (Comments.after x)) = Some l
       /\ List.length l <= S n.
Proof.
  intros Hseed x.
  assert (H1 : JsMap.size
                 (Comments.comments
                    (Comments.init (S n) date (UserData.comments request)))
               <= S n).
  { simpl. etransitivity; [apply JsMap_size_of_entries_le|exact Hseed]. }
  pose proof (getPostComments_inv OVER_RANGE add n date mode request listening0
                env (S n) H1 (le_n _)) as HI.
  destruct (getPostComments_exit OVER_RANGE add n date mode request listening0
              env) as [_ Hp].
  fold x in HI, Hp.
  destruct HI as [Hsize _ _ _ _ _ _].
  split; [exact Hsize|].
  eexists. split; [exact Hp|exact Hsize].
Qed.


(** * The claims about how a call ends *)


(** C2, refuted by the code of [getReviews].  The claim: the response
    observer is unsubscribed on every exit path.  On the path of C1 the call
    throws with its observer still subscribed to the page. *)
Theorem getReviews_first_scan_throw_leaves_observer :
  let x :=
    Reviews.getReviews Scenario.noPermalink (Some 1) Scenario.window
      Scenario.fresh false Scenario.firstScanThrows
  in
  Reviews.result x = Throw Scenario.selectorNotFound
  /\ listening (Reviews.after x) = true.
Proof. vm_compute. repeat split. Qed.

(** C7, refuted by the code of [getReviewsFromPage].  The claim: seeded with
    at most [max] items, the accumulator never exceeds [max].  The loop of
    [getReviewsFromPage] inserts before it tests the quota: seeded with the
    one review a quota of one allows, it stores a second one and persists
    both. *)
Theorem getReviews_full_seed_exceeds_quota :
  let x :=
    Reviews.getReviews Scenario.noPermalink (Some 1) Scenario.window
      Scenario.fullSeed false Scenario.oneMore
  in
  JsMap.size (Reviews.reviews (Reviews.init (UserData.reviews Scenario.fullSeed)))
  = 1
  /\ JsMap.size (Reviews.reviews (vars (Reviews.after x))) = 2
  /\ UserData.reviews (userData (Reviews.after x))
     = Some [("a", Scenario.review "a" 150); ("b", Scenario.review "b" 160)].
Proof. vm_compute. repeat split. Qed.

(** C9, refuted by the code of the post observer.  The claim: an observer
    does nothing for a response that arrives once the gate is settled or the
    page is closed.  [interceptAjax] of [getPostUrls] has no such guard: with
    the gate resolved an error-marked payload still counts and sleeps, and
    with the page closed a 404 still settles the gate. *)
Theorem posts_observer_acts_after_gate_settled :
  Deferred.resolved (Posts.finish Scenario.postsSettled) = true
  /\ Posts.rateLimitCount Scenario.postsSettled = 0
  /\ Posts.rateLimitCount
       (Posts.interceptAjax Scenario.postsSettled Scenario.errorJson) = 1
  /\ Posts.effects Scenario.postsSettled = []
  /\ Posts.effects
       (Posts.interceptAjax Scenario.postsSettled Scenario.errorJson)
     = [Sleep 30]
  /\ Posts.finish (Posts.onClosed Scenario.postsArmed) = Deferred.Pending
  /\ Posts.finish
       (Posts.interceptAjax (Posts.onClosed Scenario.postsArmed)
          Scenario.notFound)
     = Deferred.Resolved.
Proof. vm_compute. repeat split. Qed.

(** C8.  In each flow, the iteration that meets an item whose key is already
    stored leaves the accumulator exactly as it is, whatever the item
    carries: the stored value and the size are unchanged. *)
Theorem insert_existing_key_is_noop :
  (forall max r s u,
      FbReview.url r = Some u ->
      JsMap.has u (Reviews.reviews s) = true ->
      Reviews.reviews (fst (Reviews.forReview max r s)) = Reviews.reviews s)
  /\ (forall OVER_RANGE BLACKLIST story max date username p s postId t parsed,
         Posts.postMeta BLACKLIST p = Some (postId, t) ->
         story (Posts.url p) username postId = Some parsed ->
         JsSet.has (Posts.href parsed) (Posts.urls s) = true ->
         Posts.urls
           (fst (Posts.forPost OVER_RANGE BLACKLIST story max date username p s))
         = Posts.urls s)
  /\ (forall add p s,
         JsMap.has (Node.id p) (Comments.comments s) = true ->
         Comments.comments (fst (Comments.forNode add p s))
         = Comments.comments s).
Proof.
  split; [|split].
  - intros. eapply reviews_forReview_present; eauto.
  - intros OVER_RANGE BLACKLIST story max date username p s postId t parsed
      Hm Hs Hh.
    destruct (posts_forPost_urls OVER_RANGE BLACKLIST story max date username
                p s) as [H|(postId' & t' & parsed' & Hm' & Hs' & Hh' & _)].
    + exact H.
    + rewrite Hm in Hm'. inversion Hm'; subst.
      rewrite Hs in Hs'. inversion Hs'; subst.
      rewrite Hh in Hh'. discriminate.
  - intros add p s Hh. unfold Comments.forNode. rewrite Hh. reflexivity.
Qed.

Lemma insert_existing_key_is_noop_witness :
  Reviews.reviews
    (fst (Reviews.forReview 5 (Scenario.review "a" 180)
            (Reviews.init (Some [("a", Scenario.review "a" 150)]))))
  = [("a", Scenario.review "a" 150)]
  /\ Posts.urls
       (fst (Posts.forPost Scenario.OVER_RANGE Scenario.PSN_POST_TYPE_BLACKLIST
               Scenario.storyFbToDesktopPermalink 5 Scenario.window "page"
               (Scenario.post "https://m.facebook.com/story/1" 150 false)
               (Posts.init Scenario.window
                  (Some ["https://m.facebook.com/story/1"]))))
     = ["https://m.facebook.com/story/1"]
  /\ Comments.comments
       (fst (Comments.forNode Scenario.add (Scenario.node "c1" 150)
               (Comments.init 5 Scenario.window
                  (Some [("c1", Comments.toComment (Scenario.node "c1" 120))]))))
     = [("c1", Comments.toComment (Scenario.node "c1" 120))].
Proof.
  destruct insert_existing_key_is_noop as (HR & HP & HC).
  split; [|split].
  - exact (HR 5 (Scenario.review "a" 180)
             (Reviews.init (Some [("a", Scenario.review "a" 150)])) "a"
             eq_refl eq_refl).
  - exact (HP Scenario.OVER_RANGE Scenario.PSN_POST_TYPE_BLACKLIST
             Scenario.storyFbToDesktopPermalink 5 Scenario.window "page"
             (Scenario.post "https://m.facebook.com/story/1" 150 false)
             (Posts.init Scenario.window
                (Some ["https://m.facebook.com/story/1"]))
             "1" 150%Z
             {| Posts.href := "https://m.facebook.com/story/1";
                Posts.pathname := "https://m.facebook.com/story/1";
                Posts.story_fbid := None |}
             eq_refl eq_refl eq_refl).
  - exact (HC Scenario.add (Scenario.node "c1" 150)
             (Comments.init 5 Scenario.window
                (Some [("c1", Comments.toComment (Scenario.node "c1" 120))]))
             eq_refl).
Defined.





(** * The claims about the observers *)









(** * Properties of listings, search results and post statistics *)

Lemma JsSet_has_In (x : string) (s : JsSet.t) :
  JsSet.has x s = true <-> In x s.
Proof.
  unfold JsSet.has. rewrite existsb_exists. split.
  - intros (y & Hy & He). apply String.eqb_eq in He. subst y. exact Hy.
  - intros H. exists x. split; [exact H|apply String.eqb_refl].
Qed.

Lemma JsSet_has_not_In (x : string) (s : JsSet.t) :
  JsSet.has x s = false <-> ~ In x s.
Proof.
  rewrite <- JsSet_has_In. destruct (JsSet.has x s); split; congruence.
Qed.

Lemma JsSet_add_In (x y : string) (s : JsSet.t) :
  In y (JsSet.add x s) <-> y = x \/ In y s.
Proof.
  unfold JsSet.add. destruct (JsSet.has x s) eqn:E.
  - apply JsSet_has_In in E. split; [auto|].
    intros [H|H]; [subst y|]; assumption.
  - rewrite in_app_iff. simpl. split.
    + intros [H|[H|[]]]; auto.
    + intros [H|H]; auto.
Qed.

Lemma JsSet_add_NoDup (x : string) (s : JsSet.t) :
  NoDup s -> NoDup (JsSet.add x s).
Proof.
  intros H. unfold JsSet.add. destruct (JsSet.has x s) eqn:E; [exact H|].
  apply JsSet_has_not_In in E.
  apply NoDup_app; [exact H|repeat constructor; auto|].
  intros y Hy [Hx|[]]. subst y. contradiction.
Qed.

Lemma JsSet_fold_add (l : list string) : forall acc,
  NoDup acc ->
  NoDup (fold_left (fun s x => JsSet.add x s) l acc)
  /\ (forall y,
         In y (fold_left (fun s x => JsSet.add x s) l acc)
         <-> In y acc \/ In y l).
Proof.
  induction l as [|x l IH]; intros acc Hacc; simpl.
  - split; [exact Hacc|]. intros y. tauto.
  - destruct (IH (JsSet.add x acc) (JsSet_add_NoDup x acc Hacc)) as [H1 H2].
    split; [exact H1|].
    intros y. rewrite H2, JsSet_add_In. split.
    + intros [[H|H]|H]; auto.
    + intros [H|[H|H]]; auto.
Qed.

Lemma JsSet_of_list_NoDup (l : list string) : NoDup (JsSet.of_list l).
Proof. apply (JsSet_fold_add l []). constructor. Qed.

Lemma JsSet_of_list_In (l : list string) (y : string) :
  In y (JsSet.of_list l) <-> In y l.
Proof.
  unfold JsSet.of_list.
  rewrite (proj2 (JsSet_fold_add l [] (NoDup_nil _))). simpl. tauto.
Qed.

(** A list without duplicates is the [Set] built from it. *)
Lemma JsSet_of_list_fixed (l : list string) :
  NoDup l -> JsSet.of_list l = l.
Proof.
  unfold JsSet.of_list.
  assert (G : forall acc,
             NoDup (acc ++ l) ->
             fold_left (fun s x => JsSet.add x s) l acc = acc ++ l).
  { induction l as [|x l IH]; intros acc H; simpl.
    - rewrite app_nil_r. reflexivity.
    - assert (Hx : JsSet.has x acc = false).
      { apply JsSet_has_not_In. intros Hin.
        apply NoDup_remove_2 in H. apply H. apply in_or_app. auto. }
      unfold JsSet.add at 2. rewrite Hx.
      replace (acc ++ x :: l) with ((acc ++ [x]) ++ l) in *
        by (rewrite <- app_assoc; reflexivity).
      apply IH. exact H. }
  intros H. apply (G [] H).
Qed.

(** X1.  [getPagesFromListing] removes the duplicates of the listing and
    nothing else: the set it returns has no duplicate, holds exactly the
    links of the listing, and is the listing itself when that has no
    duplicate; a failing evaluation is passed on. *)
Theorem getPagesFromListing_dedupes :
  (forall hrefs,
      exists pages,
        getPagesFromListing (Ok hrefs) = Ok pages
        /\ NoDup pages
        /\ (forall href, In href pages <-> In href hrefs)
        /\ JsSet.size pages <= List.length hrefs
        /\ (NoDup hrefs -> pages = hrefs))
  /\ (forall e, getPagesFromListing (Throw e) = Throw e).
Proof.
  split; [|reflexivity].
  intros hrefs. exists (JsSet.of_list hrefs).
  split; [reflexivity|].
  split; [apply JsSet_of_list_NoDup|].
  split; [intros href; apply JsSet_of_list_In|].
  split; [apply JsSet_size_of_list_le|apply JsSet_of_list_fixed].
Qed.

Lemma getPagesFromListing_dedupes_witness :
  exists pages,
    getPagesFromListing (Ok ["a"; "b"; "a"; "c"; "b"]) = Ok pages
    /\ pages = ["a"; "b"; "c"]
    /\ NoDup pages.
Proof.
  destruct (proj1 getPagesFromListing_dedupes ["a"; "b"; "a"; "c"; "b"])
    as (pages & He & Hn & _).
  exists pages. split; [exact He|]. split; [|exact Hn].
  vm_compute in He. inversion He. reflexivity.
Defined.

























(** * Post discovery: what a call keeps and what it enqueues *)

Section PostsKeeps.

Variable OVER_RANGE : nat.
Variable PSN_POST_TYPE_BLACKLIST : list string.
Variable storyFbToDesktopPermalink : string -> string -> string -> option Posts.URL.
Variable max : nat.
Variable date : MinMaxDates.
Variable username : string.
Variable kept : JsSet.t.

Local Abbreviation forPost :=
  (Posts.forPost OVER_RANGE PSN_POST_TYPE_BLACKLIST storyFbToDesktopPermalink
     max date username).
Local Abbreviation forPosts :=
  (Posts.forPosts OVER_RANGE PSN_POST_TYPE_BLACKLIST storyFbToDesktopPermalink
     max date username).
Local Abbreviation getPosts :=
  (Posts.getPosts OVER_RANGE PSN_POST_TYPE_BLACKLIST storyFbToDesktopPermalink
     max date username).
Local Abbreviation maybeStop :=
  (Posts.maybeStop OVER_RANGE PSN_POST_TYPE_BLACKLIST storyFbToDesktopPermalink
     max date username).
Local Abbreviation onCycle :=
  (Posts.onCycle OVER_RANGE PSN_POST_TYPE_BLACKLIST storyFbToDesktopPermalink
     max date username).
Local Abbreviation attempt :=
  (Posts.attempt OVER_RANGE PSN_POST_TYPE_BLACKLIST storyFbToDesktopPermalink
     max date username).

Lemma PostsInv_ext s s' :
  Posts.urls s' = Posts.urls s ->
  enqueued (Posts.effects s') = enqueued (Posts.effects s) ->
  PostsInv kept s -> PostsInv kept s'.
Proof.
  intros E1 E2 [H1 H2 H3 H4].
  constructor; rewrite ?E1, ?E2; auto.
Qed.

Ltac pframe s := apply (PostsInv_ext s); try reflexivity; auto.

Lemma posts_forPost_keeps p s :
  PostsInv kept s -> PostsInv kept (fst (forPost p s)).
Proof.
  intros HI. unfold Posts.forPost. simpl.
  destruct ((max <=? JsSet.size (Posts.urls s))
            || Counter.isOver OVER_RANGE (Posts.counter s)).
  { simpl. unfold Posts.stopOrFail. break_match; pframe s. }
  destruct (Posts.postMeta PSN_POST_TYPE_BLACKLIST p) as [[postId t]|];
    [|simpl; pframe s].
  destruct (Posts.classify date p t (Posts.counter s)) as [inDateRange cnt].
  destruct (storyFbToDesktopPermalink (Posts.url p) username postId)
    as [parsed|]; [|simpl; pframe s].
  simpl.
  destruct inDateRange; simpl; [|pframe s].
  destruct (JsSet.has (Posts.href parsed) (Posts.urls s)) eqn:Eh; simpl;
    [pframe s|].
  apply JsSet_has_not_In in Eh.
  destruct HI as [H1 H2 H3 H4].
  assert (Hk : ~ In (Posts.href parsed) kept) by (intros Hin; auto).
  assert (Hq : ~ In (Posts.href parsed) (enqueued (Posts.effects s))).
  { intros Hin. apply H4 in Hin. tauto. }
  break_match; simpl; constructor; simpl.
  - apply JsSet_add_NoDup. exact H1.
  - intros u Hu. apply JsSet_add_In. auto.
  - constructor; assumption.
  - intros u [Hu|Hu].
    + subst u. split; [apply JsSet_add_In; auto|exact Hk].
    + destruct (H4 u Hu). split; [apply JsSet_add_In; auto|assumption].
  - apply JsSet_add_NoDup. exact H1.
  - intros u Hu. apply JsSet_add_In. auto.
  - exact H3.
  - intros u Hu. destruct (H4 u Hu).
    split; [apply JsSet_add_In; auto|assumption].
Qed.

Lemma posts_forPosts_keeps l : forall s,
  PostsInv kept s -> PostsInv kept (fst (forPosts l s)).
Proof.
  induction l as [|p l IH]; intros s H; simpl.
  - exact H.
  - pose proof (posts_forPost_keeps p s H) as Hp.
    destruct (forPost p s) as [s' returned]. simpl in Hp.
    destruct returned; simpl; auto.
Qed.

Lemma posts_getPosts_keeps r s :
  PostsInv kept s -> PostsInv kept (getPosts r s).
Proof.
  intros H. unfold Posts.getPosts. destruct r as [l|e].
  - match goal with
    | |- context [forPosts l ?s0] =>
        assert (H0 : PostsInv kept s0) by (pframe s);
        pose proof (posts_forPosts_keeps l s0 H0) as Hl;
        destruct (forPosts l s0) as [s' returned]
    end.
    simpl in Hl. destruct returned; [exact Hl|pframe s'].
  - destruct (Posts.isPostsError e); pframe s.
Qed.

Lemma posts_interceptAjax_keeps s res :
  PostsInv kept s -> PostsInv kept (Posts.interceptAjax s res).
Proof.
  intros H.
  assert (Ht : PostsInv kept (fst (Posts.interceptAjax_try res s))).
  { unfold Posts.interceptAjax_try. repeat break_match; simpl; pframe s. }
  unfold Posts.interceptAjax.
  destruct (Posts.interceptAjax_try res s) as [s' [e|]]; simpl in *; auto.
  destruct (Posts.isReady s'); auto. pframe s'.
Qed.

Lemma posts_onCycle_keeps s c :
  PostsInv kept s -> PostsInv kept (onCycle s c).
Proof.
  intros H. unfold Posts.onCycle. destruct (Posts.scrolling s); auto.
  assert (Hm : PostsInv kept (fst (maybeStop c s))).
  { unfold Posts.maybeStop.
    destruct (Posts.closed s || Deferred.resolved (Posts.finish s));
      simpl; auto.
    destruct (Posts.loading c) as [e|].
    - destruct e; simpl; auto.
      break_match; simpl; pframe s.
    - simpl.
      assert (H0 : PostsInv kept (Posts.with_stillLoading 0 s)) by (pframe s).
      pose proof (posts_getPosts_keeps (Posts.posts c) _ H0) as Hg.
      break_match; simpl; auto.
      pframe (getPosts (Posts.posts c) (Posts.with_stillLoading 0 s)). }
  destruct (maybeStop c s) as [s' stop]. simpl in Hm.
  destruct stop; auto. pframe s'.
Qed.

Lemma posts_attempt_keeps env s :
  PostsInv kept s -> PostsInv kept (fst (attempt env s)).
Proof.
  intros H. unfold Posts.attempt.
  assert (H1 : PostsInv kept
                 (fold_left Posts.interceptAjax (Posts.early env) s)).
  { apply (fold_invariant Posts.interceptAjax (PostsInv kept)); auto.
    intros s0 res. apply posts_interceptAjax_keeps. }
  destruct (Posts.resetScroll env); simpl; auto.
  match goal with
  | |- context [run ?g ?r ?c ?x ?s0 ?evs] =>
      assert (Hr : PostsInv kept (fst (run g r c x s0 evs)));
      [|destruct (run g r c x s0 evs) as [s1 [|e|]]; exact Hr]
  end.
  apply run_invariant.
  - intros s0 res. apply posts_interceptAjax_keeps.
  - intros s0 c. apply posts_onCycle_keeps.
  - intros s0 H0. unfold Posts.onClosed. pframe s0.
  - pframe (fold_left Posts.interceptAjax (Posts.early env) s).
Qed.

End PostsKeeps.

(** What a call of [getPostUrls] leaves, relative to the set its seed
    makes. *)
Lemma getPostUrls_keeps OVER_RANGE BLACKLIST story n date username request
  listening0 env :
  PostsInv
    (JsSet.of_list
       (match UserData.urls request with Some l => l | None => [] end))
    (vars (Posts.after
             (Posts.getPostUrls OVER_RANGE BLACKLIST story (Some (S n)) date
                username request listening0 env))).
Proof.
  assert (H0 : PostsInv
                 (JsSet.of_list
                    (match UserData.urls request with
                     | Some l => l
                     | None => []
                     end))
                 (Posts.init date (UserData.urls request))).
  { constructor; simpl; auto.
    - apply JsSet_of_list_NoDup.
    - constructor.
    - intros u []. }
  pose proof (posts_attempt_keeps OVER_RANGE BLACKLIST story (S n) date
                username _ env _ H0) as Ha.
  unfold Posts.getPostUrls, tryCatchFinally, on_vars. simpl.
  destruct (Posts.attempt OVER_RANGE BLACKLIST story (S n) date username env
              (Posts.init date (UserData.urls request))) as [s1 thrown].
  simpl in *.
  apply (PostsInv_ext _ s1); try reflexivity. exact Ha.
Qed.

(** What the [finally] of [getPostUrls] writes is the accumulator of the
    call. *)
Lemma getPostUrls_persisted OVER_RANGE BLACKLIST story n date username request
  listening0 env :
  let x :=
    Posts.getPostUrls OVER_RANGE BLACKLIST story (Some (S n)) date username
      request listening0 env
  in
  UserData.urls (userData (Posts.after x))
  = Some (Posts.urls (vars (Posts.after x)))
  /\ (forall v, Posts.result x = Ok v ->
                v = List.length (Posts.urls (vars (Posts.after x)))).
Proof.
  unfold Posts.getPostUrls, tryCatchFinally, on_vars. simpl.
  destruct (Posts.attempt OVER_RANGE BLACKLIST story (S n) date username env
              (Posts.init date (UserData.urls request))) as [s1 thrown].
  simpl. split; [reflexivity|].
  intros v. destruct thrown as [e|]; simpl.
  - destruct (Posts.handler _ e); intros H; inversion H. reflexivity.
  - intros H. inversion H. reflexivity.
Qed.

(** X6.  A call of [getPostUrls] with a positive maximum persists a list
    without duplicates; when it returns, it returns the length of that list;
    and when the seed holds at most [max] urls, so does the list. *)
Theorem getPostUrls_returns_persisted_size :
  forall OVER_RANGE BLACKLIST story n date username request listening0 env,
    let x :=
      Posts.getPostUrls OVER_RANGE BLACKLIST story (Some (S n)) date username
        request listening0 env
    in
    exists l,
      UserData.urls (userData (Posts.after x)) = Some l
      /\ NoDup l
      /\ (forall v, Posts.result x = Ok v -> v = List.length l)
      /\ (List.length
            (match UserData.urls request with Some l0 => l0 | None => [] end)
          <= S n ->
          List.length l <= S n).
Proof.
  intros OVER_RANGE BLACKLIST story n date username request listening0 env x.
  destruct (getPostUrls_persisted OVER_RANGE BLACKLIST story n date username
              request listening0 env) as [Hp Hv].
  destruct (getPostUrls_keeps OVER_RANGE BLACKLIST story n date username
              request listening0 env) as [Hn _ _ _].
  fold x in Hp, Hv, Hn.
  exists (Posts.urls (vars (Posts.after x))).
  split; [exact Hp|]. split; [exact Hn|]. split; [exact Hv|].
  intros Hseed.
  apply (getPostUrls_quota OVER_RANGE BLACKLIST story n date username request
           listening0 env Hseed).
Qed.

Lemma getPostUrls_returns_persisted_size_witness :
  exists l,
    UserData.urls (userData (Posts.after Cases.firstCall)) = Some l
    /\ 2 = List.length l
    /\ List.length l <= 5.
Proof.
  destruct (getPostUrls_returns_persisted_size Scenario.OVER_RANGE
              Scenario.PSN_POST_TYPE_BLACKLIST
              Scenario.storyFbToDesktopPermalink 4 Scenario.window "page"
              Scenario.fresh false Cases.firstVisit)
    as (l & Hl & _ & Hv & Hq).
  exists l. split; [exact Hl|]. split.
  - exact (Hv 2 eq_refl).
  - apply Hq. simpl. apply Nat.le_0_l.
Defined.

(** X7.  A call of [getPostUrls] with a positive maximum never drops what it
    was seeded with: every url of [request.userData.urls] is in the list the
    call persists, whatever the page does and however the call ends. *)
Theorem getPostUrls_keeps_seed :
  forall OVER_RANGE BLACKLIST story n date username request listening0 env seed,
    UserData.urls request = Some seed ->
    let x :=
      Posts.getPostUrls OVER_RANGE BLACKLIST story (Some (S n)) date username
        request listening0 env
    in
    exists l,
      UserData.urls (userData (Posts.after x)) = Some l
      /\ forall u, In u seed -> In u l.
Proof.
  intros OVER_RANGE BLACKLIST story n date username request listening0 env
    seed Hseed x.
  destruct (getPostUrls_persisted OVER_RANGE BLACKLIST story n date username
              request listening0 env) as [Hp _].
  destruct (getPostUrls_keeps OVER_RANGE BLACKLIST story n date username
              request listening0 env) as [_ Hk _ _].
  fold x in Hp, Hk. rewrite Hseed in Hk.
  exists (Posts.urls (vars (Posts.after x))).
  split; [exact Hp|].
  intros u Hu. apply Hk. apply JsSet_of_list_In. exact Hu.
Qed.

Lemma getPostUrls_keeps_seed_witness :
  exists l,
    UserData.urls (userData (Posts.after Cases.secondCall)) = Some l
    /\ In "https://m.facebook.com/story/2" l.
Proof.
  destruct (getPostUrls_keeps_seed Scenario.OVER_RANGE
              Scenario.PSN_POST_TYPE_BLACKLIST
              Scenario.storyFbToDesktopPermalink 4 Scenario.window "page"
              (userData (Posts.after Cases.firstCall))
              (listening (Posts.after Cases.firstCall)) Cases.secondVisit
              ["https://m.facebook.com/story/1";
               "https://m.facebook.com/story/2"] eq_refl)
    as (l & Hl & Hin).
  exists l. split; [exact Hl|].
  apply Hin. right. left. reflexivity.
Defined.



(** X9.  Retrying [getPostUrls] on the userData an earlier call left is
    additive: the list the retry persists holds every url the earlier call
    persisted, the retry enqueues none of them again, and with a seed within
    the quota both lists stay within it. *)
Theorem getPostUrls_retry_is_additive :
  forall OVER_RANGE BLACKLIST story n date username request listening0 env1
         env2,
    let x1 :=
      Posts.getPostUrls OVER_RANGE BLACKLIST story (Some (S n)) date username
        request listening0 env1
    in
    let x2 :=
      Posts.getPostUrls OVER_RANGE BLACKLIST story (Some (S n)) date username
        (userData (Posts.after x1)) (listening (Posts.after x1)) env2
    in
    exists l1 l2,
      UserData.urls (userData (Posts.after x1)) = Some l1
      /\ UserData.urls (userData (Posts.after x2)) = Some l2
      /\ (forall u, In u l1 -> In u l2)
      /\ (forall u,
             In u (enqueued (Posts.effects (vars (Posts.after x2)))) ->
             ~ In u l1)
      /\ (List.length
            (match UserData.urls request with Some l0 => l0 | None => [] end)
          <= S n ->
          List.length l1 <= S n /\ List.length l2 <= S n).
Proof.
  intros OVER_RANGE BLACKLIST story n date username request listening0 env1
    env2 x1 x2.
  destruct (getPostUrls_persisted OVER_RANGE BLACKLIST story n date username
              request listening0 env1) as [Hp1 _].
  destruct (getPostUrls_persisted OVER_RANGE BLACKLIST story n date username
              (userData (Posts.after x1)) (listening (Posts.after x1)) env2)
    as [Hp2 _].
  destruct (getPostUrls_keeps OVER_RANGE BLACKLIST story n date username
              (userData (Posts.after x1)) (listening (Posts.after x1)) env2)
    as [_ Hk _ Hnew].
  fold x1 in Hp1. fold x1 x2 in Hp2, Hk, Hnew.
  rewrite Hp1 in Hk, Hnew.
  exists (Posts.urls (vars (Posts.after x1))),
    (Posts.urls (vars (Posts.after x2))).
  split; [exact Hp1|]. split; [exact Hp2|].
  split.
  { intros u Hu. apply Hk. apply JsSet_of_list_In. exact Hu. }
  split.
  { intros u Hu Hin. destruct (Hnew u Hu) as [_ H2].
    apply H2. apply JsSet_of_list_In. exact Hin. }
  intros Hseed.
  destruct (getPostUrls_quota OVER_RANGE BLACKLIST story n date username
              request listening0 env1 Hseed) as [Hq1 _].
  fold x1 in Hq1. split; [exact Hq1|].
  assert (Hseed2 :
            List.length
              (match UserData.urls (userData (Posts.after x1)) with
               | Some l0 => l0
               | None => []
               end) <= S n).
  { rewrite Hp1. exact Hq1. }
  destruct (getPostUrls_quota OVER_RANGE BLACKLIST story n date username
              (userData (Posts.after x1)) (listening (Posts.after x1)) env2
              Hseed2) as [Hq2 _].
  exact Hq2.
Qed.

Lemma getPostUrls_retry_is_additive_witness :
  exists l1 l2,
    UserData.urls (userData (Posts.after Cases.firstCall)) = Some l1
    /\ UserData.urls (userData (Posts.after Cases.secondCall)) = Some l2
    /\ In "https://m.facebook.com/story/1" l2
    /\ ~ In "https://m.facebook.com/story/3" l1
    /\ List.length l2 <= 5.
Proof.
  destruct (getPostUrls_retry_is_additive Scenario.OVER_RANGE
              Scenario.PSN_POST_TYPE_BLACKLIST
              Scenario.storyFbToDesktopPermalink 4 Scenario.window "page"
              Scenario.fresh false Cases.firstVisit Cases.secondVisit)
    as (l1 & l2 & H1 & H2 & Hin & Hq & Hlen).
  exists l1, l2. split; [exact H1|]. split; [exact H2|].
  split.
  { apply Hin. vm_compute in H1. inversion H1. left. reflexivity. }
  split.
  { apply Hq. left. reflexivity. }
  apply Hlen. simpl. apply Nat.le_0_l.
Defined.

(** * Post discovery: a page that never loads *)

Section PostsNeverLoads.

Variable OVER_RANGE : nat.
Variable PSN_POST_TYPE_BLACKLIST : list string.
Variable storyFbToDesktopPermalink : string -> string -> string -> option Posts.URL.
Variable max : nat.
Variable date : MinMaxDates.
Variable username : string.

Local Abbreviation onCycle :=
  (Posts.onCycle OVER_RANGE PSN_POST_TYPE_BLACKLIST storyFbToDesktopPermalink
     max date username).

Lemma posts_timeout_step s c :
  0 < max -> postsWaiting OVER_RANGE s -> postsTimedOut c ->
  onCycle s c
  = if 15 <=? Posts.stillLoading s
    then Posts.reject (InfoError "Posts are not loading" "posts")
           (Posts.with_stillLoading (S (Posts.stillLoading s)) s)
    else Posts.with_stillLoading (S (Posts.stillLoading s)) s.
Proof.
  intros Hmax (Hc & Hf & Hs & Hu & Ho) (Hl & Hi).
  change (15 <=? Posts.stillLoading s)
    with (15 <? S (Posts.stillLoading s)).
  unfold Posts.onCycle, Posts.maybeStop, Posts.shouldStop.
  rewrite Hs, Hc, Hf, Hl. simpl. rewrite Hu. simpl.
  destruct (15 <? S (Posts.stillLoading s)); [reflexivity|].
  rewrite Ho, Hi.
  destruct max; [lia|]. reflexivity.
Qed.

Lemma posts_timeout_run cs : forall s,
  0 < max -> postsWaiting OVER_RANGE s -> Forall postsTimedOut cs ->
  Posts.stillLoading s + List.length cs <= 15 ->
  let s' := fold_left onCycle cs s in
  postsWaiting OVER_RANGE s'
  /\ Posts.stillLoading s' = Posts.stillLoading s + List.length cs.
Proof.
  induction cs as [|c cs IH]; intros s Hmax Hw Hall Hlen; simpl in *.
  - split; [exact Hw|lia].
  - inversion Hall as [|? ? Hc Hrest]; subst.
    rewrite posts_timeout_step by assumption.
    destruct (15 <=? Posts.stillLoading s) eqn:E;
      [apply Nat.leb_le in E; lia|].
    destruct (IH (Posts.with_stillLoading (S (Posts.stillLoading s)) s))
      as [H1 H2]; auto.
    + simpl. lia.
    + split; [exact H1|]. rewrite H2. simpl. lia.
Qed.

End PostsNeverLoads.

(** X10.  While post discovery has found nothing, each scroll cycle whose
    wait for the loading marker times out adds one to [stillLoading] and
    leaves the gate alone, up to fifteen in a row; the sixteenth rejects the
    gate with [Posts are not loading].  With a url in the accumulator a
    timed-out cycle never settles the gate. *)
Theorem posts_not_loading_threshold :
  (forall OVER_RANGE BLACKLIST story max date username s cs,
      0 < max -> postsWaiting OVER_RANGE s -> Posts.stillLoading s = 0 ->
      Forall postsTimedOut cs ->
      let s' :=
        fold_left (Posts.onCycle OVER_RANGE BLACKLIST story max date username)
          cs s
      in
      (List.length cs <= 15 ->
       Posts.finish s' = Deferred.Pending
       /\ Posts.stillLoading s' = List.length cs
       /\ Posts.scrolling s' = true)
      /\ (List.length cs = 16 ->
          Posts.finish s'
          = Deferred.Rejected (InfoError "Posts are not loading" "posts")))
  /\ (forall OVER_RANGE BLACKLIST story max date username s c,
         Posts.urls s <> [] ->
         Posts.loading c = Some TimeoutError ->
         Posts.finish
           (Posts.onCycle OVER_RANGE BLACKLIST story max date username s c)
         = Posts.finish s).
Proof.
  split.
  - intros OVER_RANGE BLACKLIST story max date username s cs Hmax Hw H0 Hall
      s'.
    split.
    + intros Hlen.
      destruct (posts_timeout_run OVER_RANGE BLACKLIST story max date username
                  cs s Hmax Hw Hall) as [(Hc & Hf & Hs & _) Hn]; [lia|].
      fold s' in Hc, Hf, Hs, Hn. rewrite H0 in Hn. auto.
    + intros Hlen.
      destruct (exists_last (l := cs)) as (front & c & Ecs).
      { intros E. rewrite E in Hlen. discriminate. }
      subst cs. rewrite length_app in Hlen. simpl in Hlen.
      apply Forall_app in Hall. destruct Hall as [Hfront Hlast].
      inversion Hlast as [|? ? Hc _]; subst.
      destruct (posts_timeout_run OVER_RANGE BLACKLIST story max date username
                  front s Hmax Hw Hfront) as [Hw' Hn]; [lia|].
      unfold s'. rewrite fold_left_app. simpl.
      rewrite posts_timeout_step by assumption.
      rewrite Hn, H0.
      replace (0 + List.length front) with 15 by lia. simpl.
      destruct Hw' as (_ & Hf & _). rewrite Hf. reflexivity.
  - intros OVER_RANGE BLACKLIST story max date username s c Hu Hl.
    unfold Posts.onCycle, Posts.maybeStop.
    destruct (Posts.scrolling s); [|reflexivity].
    destruct (Posts.closed s || Deferred.resolved (Posts.finish s));
      [reflexivity|].
    rewrite Hl. simpl.
    destruct (Posts.urls s) as [|u us]; [contradiction|]. simpl.
    break_match; reflexivity.
Qed.

Lemma posts_not_loading_threshold_witness :
  Posts.finish
    (fold_left
       (Posts.onCycle Scenario.OVER_RANGE Scenario.PSN_POST_TYPE_BLACKLIST
          Scenario.storyFbToDesktopPermalink 5 Scenario.window "page")
       (repeat Cases.timeoutCycle 15) Scenario.postsArmed)
  = Deferred.Pending
  /\ Posts.finish
       (fold_left
          (Posts.onCycle Scenario.OVER_RANGE Scenario.PSN_POST_TYPE_BLACKLIST
             Scenario.storyFbToDesktopPermalink 5 Scenario.window "page")
          (repeat Cases.timeoutCycle 16) Scenario.postsArmed)
     = Deferred.Rejected (InfoError "Posts are not loading" "posts")
  /\ Posts.finish
       (Posts.onCycle Scenario.OVER_RANGE Scenario.PSN_POST_TYPE_BLACKLIST
          Scenario.storyFbToDesktopPermalink 5 Scenario.window "page"
          (Posts.with_urls ["https://m.facebook.com/story/1"]
             Scenario.postsArmed)
          Cases.timeoutCycle)
     = Deferred.Pending.
Proof.
  assert (Hmax : 0 < 5) by (repeat constructor).
  assert (Hw : postsWaiting Scenario.OVER_RANGE Scenario.postsArmed).
  { repeat split. }
  assert (Hall : forall k, Forall postsTimedOut (repeat Cases.timeoutCycle k)).
  { intros k. apply Forall_forall. intros c Hc. apply repeat_spec in Hc.
    subst c. split; reflexivity. }
  destruct posts_not_loading_threshold as [H1 H2].
  split; [|split].
  - exact (proj1 (proj1 (H1 Scenario.OVER_RANGE Scenario.PSN_POST_TYPE_BLACKLIST
                           Scenario.storyFbToDesktopPermalink 5 Scenario.window
                           "page" Scenario.postsArmed
                           (repeat Cases.timeoutCycle 15) Hmax Hw eq_refl
                           (Hall 15))
                    (le_n 15))).
  - exact (proj2 (H1 Scenario.OVER_RANGE Scenario.PSN_POST_TYPE_BLACKLIST
                    Scenario.storyFbToDesktopPermalink 5 Scenario.window
                    "page" Scenario.postsArmed
                    (repeat Cases.timeoutCycle 16) Hmax Hw eq_refl (Hall 16))
             eq_refl).
  - refine (H2 Scenario.OVER_RANGE Scenario.PSN_POST_TYPE_BLACKLIST
              Scenario.storyFbToDesktopPermalink 5 Scenario.window "page"
              (Posts.with_urls ["https://m.facebook.com/story/1"]
                 Scenario.postsArmed)
              Cases.timeoutCycle _ eq_refl).
    discriminate.
Defined.

(** * Comment discovery: keys, the consumer and the quota *)

Lemma JsMap_has_keys {V : Type} (k : string) (m : JsMap.t V) :
  JsMap.has k m = true <-> In k (map fst m).
Proof.
  unfold JsMap.has. induction m as [|[k0 v0] m IH]; simpl.
  - split; [discriminate|contradiction].
  - destruct (String.eqb k k0) eqn:E.
    + apply String.eqb_eq in E. subst k0. split; auto.
    + rewrite IH. split; [auto|].
      intros [H|H]; [|exact H].
      subst k0. rewrite String.eqb_refl in E. discriminate.
Qed.

Lemma JsMap_set_keys {V : Type} (k : string) (v : V) (m : JsMap.t V) :
  map fst (JsMap.set k v m)
  = if JsMap.has k m then map fst m else map fst m ++ [k].
Proof.
  unfold JsMap.has. induction m as [|[k0 v0] m IH]; simpl.
  - reflexivity.
  - destruct (String.eqb k k0) eqn:E; simpl.
    + apply String.eqb_eq in E. subst k0. reflexivity.
    + rewrite IH. destruct (JsMap.get k m); reflexivity.
Qed.

Lemma JsMap_set_keys_NoDup {V : Type} (k : string) (v : V) (m : JsMap.t V) :
  NoDup (map fst m) -> NoDup (map fst (JsMap.set k v m)).
Proof.
  intros H. rewrite JsMap_set_keys.
  destruct (JsMap.has k m) eqn:E; [exact H|].
  apply NoDup_app; [exact H|repeat constructor; auto|].
  intros x Hx [Hk|[]]. subst x.
  apply JsMap_has_keys in Hx. congruence.
Qed.

Lemma JsMap_of_entries_keys_NoDup {V : Type} (l : list (string * V)) :
  NoDup (map fst (JsMap.of_entries l)).
Proof.
  unfold JsMap.of_entries.
  assert (G : forall acc : JsMap.t V,
             NoDup (map fst acc) ->
             NoDup (map fst
                      (fold_left (fun m kv => JsMap.set (fst kv) (snd kv) m)
                         l acc))).
  { induction l as [|x l IH]; intros acc H; simpl; auto.
    apply IH. apply JsMap_set_keys_NoDup. exact H. }
  apply G. constructor.
Qed.


Lemma find_snoc {A : Type} (f : A -> bool) (l : list A) (x : A) :
  find f (l ++ [x])
  = match find f l with
    | Some y => Some y
    | None => if f x then Some x else None
    end.
Proof.
  induction l as [|y l IH]; simpl; [reflexivity|].
  destruct (f y); auto.
Qed.

Lemma find_positive_none (l : list nat) :
  find (fun n => 0 <? n) (rev l) = None <-> list_max l = 0.
Proof.
  split.
  - intros H.
    assert (F : Forall (fun n => n <= 0) l).
    { apply Forall_forall. intros x Hx.
      apply in_rev in Hx.
      pose proof (find_none _ _ H x Hx) as E. simpl in E.
      apply Nat.ltb_ge in E. exact E. }
    apply list_max_le in F. lia.
  - intros H.
    assert (F : Forall (fun n => n <= 0) l).
    { apply list_max_le. lia. }
    rewrite Forall_forall in F.
    destruct (find (fun n => 0 <? n) (rev l)) as [c|] eqn:E; [|reflexivity].
    apply find_some in E. destruct E as [Hin Hc].
    apply in_rev in Hin. apply F in Hin.
    apply Nat.ltb_lt in Hc. lia.
Qed.

Section CommentsKeepsFacts.

Variable OVER_RANGE : nat.
Variable add : FbComment.t -> option Error.
Variable M : nat.
Variable kept : JsMap.t FbComment.t.

Local Abbreviation Keeps := (CommentsKeeps M kept).

Lemma CommentsKeeps_ext s s' :
  Comments.comments s' = Comments.comments s ->
  Comments.max s' = Comments.max s ->
  Comments.count s' = Comments.count s ->
  Comments.seen s' = Comments.seen s ->
  consumed (Comments.effects s') = consumed (Comments.effects s) ->
  Keeps s -> Keeps s'.
Proof.
  intros E1 E2 E3 E4 E5 [H1 H2 H3 H4 H5 H6 H7].
  constructor; rewrite ?E1, ?E2, ?E3, ?E4, ?E5; auto.
Qed.

Ltac kframe s := apply (CommentsKeeps_ext s); try reflexivity; auto.

Lemma comments_forNode_keeps p s :
  Keeps s -> Keeps (fst (Comments.forNode add p s)).
Proof.
  intros HI. unfold Comments.forNode.
  destruct (negb (JsMap.has (Node.id p) (Comments.comments s))) eqn:Eh;
    [|exact HI].
  apply negb_true_iff in Eh.
  destruct (Comments.max s <=? JsMap.size (Comments.comments s));
    [exact HI|].
  destruct (Counter.time (Node.created_time p) (Comments.counter s))
    as [accepted cnt].
  destruct accepted; [|kframe s].
  assert (G : Keeps (Comments.effect (Add (Comments.toComment p))
                       (Comments.with_comments
                          (JsMap.set (Node.id p) (Comments.toComment p)
                             (Comments.comments s))
                          (Comments.with_counter cnt s)))).
  { destruct HI as [H1 H2 H3 H4 H5 H6 H7].
    constructor; simpl; auto.
    - apply JsMap_set_keys_NoDup. exact H1.
    - rewrite JsMap_size_set_absent by exact Eh. rewrite H2. lia.
    - intros c [Hc|Hc].
      + subst c. exists (Node.id p).
        rewrite JsMap_get_set, String.eqb_refl. reflexivity.
      + destruct (H3 c Hc) as (k & Hk). exists k.
        rewrite JsMap_get_set.
        destruct (String.eqb k (Node.id p)) eqn:Ek; [|exact Hk].
        apply String.eqb_eq in Ek. subst k.
        unfold JsMap.has in Eh. rewrite Hk in Eh. discriminate. }
  destruct (add (Comments.toComment p)); exact G.
Qed.

Lemma comments_forNodes_keeps l : forall s,
  Keeps s -> Keeps (fst (Comments.forNodes add l s)).
Proof.
  induction l as [|p l IH]; intros s HI; simpl.
  - exact HI.
  - pose proof (comments_forNode_keeps p s HI) as Hp.
    destruct (Comments.forNode add p s) as [s' [| |e]]; simpl in *; auto.
Qed.

Lemma comments_readCount_keeps data s :
  Keeps s -> Keeps (Comments.readCount data s).
Proof.
  intros [H1 H2 H3 H4 H5 H6 H7]. unfold Comments.readCount.
  destruct (DisplayComments.count data) as [n|]; [|constructor; auto].
  simpl.
  assert (Hfind : find (fun n0 => 0 <? n0) (rev (Comments.seen s)) = None
                  <-> Comments.count s = 0).
  { rewrite find_positive_none, H4. tauto. }
  destruct (Comments.count s <? n) eqn:En.
  - apply Nat.ltb_lt in En.
    assert (Hmax : (if n <? Comments.max s then n else Comments.max s)
                   = tightened M (rev (Comments.seen s) ++ [n])
                   /\ (if n <? Comments.max s then n else Comments.max s) <= n
                   /\ 0 < (if n <? Comments.max s then n else Comments.max s)).
    { unfold tightened in *. rewrite find_snoc.
      destruct (find (fun n0 => 0 <? n0) (rev (Comments.seen s))) as [c|] eqn:E.
      - assert (Hc : Comments.count s <> 0).
        { intros Hz. apply Hfind in Hz. discriminate. }
        destruct (n <? Comments.max s) eqn:Ex;
          [apply Nat.ltb_lt in Ex; lia|apply Nat.ltb_ge in Ex].
        repeat split; auto.
      - assert (Hn : (0 <? n) = true) by (apply Nat.ltb_lt; lia).
        rewrite Hn.
        destruct (n <? Comments.max s) eqn:Ex;
          [apply Nat.ltb_lt in Ex|apply Nat.ltb_ge in Ex];
          repeat split; lia. }
    destruct Hmax as (Hm1 & Hm2 & Hm3).
    destruct (n <? Comments.max s); constructor; simpl; auto; lia.
  - apply Nat.ltb_ge in En.
    constructor; simpl; auto; try lia.
    unfold tightened in *. rewrite find_snoc.
    destruct (find (fun n0 => 0 <? n0) (rev (Comments.seen s))) as [c|] eqn:E;
      [exact H5|].
    assert (Hz : Comments.count s = 0) by (apply Hfind; reflexivity).
    assert (Hn : (0 <? n) = false) by (apply Nat.ltb_ge; lia).
    rewrite Hn. exact H5.
Qed.

Lemma comments_mergeEdges_keeps data s :
  Keeps s -> Keeps (fst (Comments.mergeEdges add data s)).
Proof.
  intros HI. unfold Comments.mergeEdges.
  destruct (0 <? List.length (DisplayComments.edges data)); [|exact HI].
  apply comments_forNodes_keeps. kframe s.
Qed.

Lemma comments_onData_keeps data s :
  Keeps s -> Keeps (fst (Comments.onData OVER_RANGE add data s)).
Proof.
  intros HI. unfold Comments.onData.
  pose proof (comments_mergeEdges_keeps data _
                (comments_readCount_keeps data s HI)) as Hm.
  destruct (Comments.mergeEdges add data (Comments.readCount data s))
    as [s1 [e|]]; simpl in *; auto.
  destruct (Comments.lastPage OVER_RANGE data s1); simpl; auto.
  kframe s1.
Qed.

Lemma comments_interceptGrapQL_keeps s res :
  Keeps s -> Keeps (Comments.interceptGrapQL OVER_RANGE add s res).
Proof.
  intros HI.
  assert (Hp : Keeps (fst (Comments.onPayload OVER_RANGE add res s))).
  { unfold Comments.onPayload.
    destruct (includes "api/graphql/" (HTTPResponse.url res)
              && Comments.canStartAdding s); [|exact HI].
    destruct (HTTPResponse.json res) as [json|]; [|exact HI].
    destruct (negb (isError json)).
    - assert (H0 : Keeps (Comments.with_rateLimitCount 0 s)) by (kframe s).
      destruct (display_comments json) as [data|]; [|exact H0].
      pose proof (comments_onData_keeps data _ H0) as Hd.
      destruct (Comments.onData OVER_RANGE add data
                  (Comments.with_rateLimitCount 0 s)) as [s1 thrown].
      exact Hd.
    - destruct (20 <? S (Comments.rateLimitCount s)); simpl; kframe s. }
  assert (Ht : Keeps (fst (Comments.interceptGrapQL_try OVER_RANGE add res s))).
  { unfold Comments.interceptGrapQL_try.
    destruct (Comments.closed s || Deferred.resolved (Comments.finish s));
      [exact HI|].
    destruct (Comments.onPayload OVER_RANGE add res s) as [s1 [| |e]];
      simpl in *; auto.
    unfold Comments.onStatus. repeat break_match; simpl; auto; kframe s1. }
  unfold Comments.interceptGrapQL.
  destruct (Comments.interceptGrapQL_try OVER_RANGE add res s) as [s1 [e|]];
    simpl in *; auto.
  destruct (Comments.isReady s1); auto. kframe s1.
Qed.

Lemma comments_onCycle_keeps s c :
  Keeps s -> Keeps (Comments.onCycle OVER_RANGE s c).
Proof.
  intros HI. unfold Comments.onCycle.
  destruct (Comments.scrolling s); [|exact HI].
  assert (Hm : Keeps (fst (Comments.maybeStop OVER_RANGE c s))).
  { unfold Comments.maybeStop.
    repeat break_match; simpl; auto; kframe s. }
  destruct (Comments.maybeStop OVER_RANGE c s) as [s1 stop]; simpl in *.
  destruct stop; auto. kframe s1.
Qed.

Lemma comments_fold_keeps l s :
  Keeps s -> Keeps (fold_left (Comments.interceptGrapQL OVER_RANGE add) l s).
Proof.
  apply (fold_invariant (Comments.interceptGrapQL OVER_RANGE add) Keeps).
  intros s0 res. apply comments_interceptGrapQL_keeps.
Qed.

Lemma comments_protected_keeps env s :
  Keeps s -> Keeps (fst (Comments.protected OVER_RANGE add env s)).
Proof.
  intros HI. unfold Comments.protected.
  match goal with
  | |- context [run ?g ?r ?c ?x ?s0 ?evs] =>
      assert (Hr : Keeps (fst (run g r c x s0 evs)));
      [|destruct (run g r c x s0 evs) as [s1 [|e|]]; exact Hr]
  end.
  apply run_invariant.
  - intros s0 res. apply comments_interceptGrapQL_keeps.
  - intros s0 c. apply comments_onCycle_keeps.
  - intros s0 H0. unfold Comments.onClosed. kframe s0.
  - pose proof (comments_fold_keeps (Comments.settling env) s HI) as Hf.
    kframe (fold_left (Comments.interceptGrapQL OVER_RANGE add)
              (Comments.settling env) s).
Qed.

Lemma comments_attempt_keeps mode env s :
  Keeps s -> Keeps (fst (Comments.attempt OVER_RANGE add mode env s)).
Proof.
  intros HI. unfold Comments.attempt.
  match goal with
  | |- context [fold_left _ (Comments.early env) ?s0] =>
      assert (H0 : Keeps s0) by (destruct mode; auto; kframe s);
      pose proof (comments_fold_keeps (Comments.early env) s0 H0) as Hf;
      set (s1 := fold_left (Comments.interceptGrapQL OVER_RANGE add)
                   (Comments.early env) s0) in *;
      clearbody s1
  end.
  destruct (Comments.loadCommentsClicked env) as [[|]|e]; simpl; auto.
  assert (H1 : Keeps (Comments.with_canStartAdding true
                        (Comments.effect Postpone s1))) by (kframe s1).
  assert (H2 : Keeps (Comments.effect Postpone s1)) by (kframe s1).
  destruct mode; try (apply comments_protected_keeps; exact H1).
  - destruct (Comments.commentOrdering env) as [[|]|e]; simpl; auto.
    + destruct (Comments.chooseMode env); simpl; auto.
      apply comments_protected_keeps; exact H1.
    + apply comments_protected_keeps; exact H1.
  - destruct (Comments.commentOrdering env) as [[|]|e]; simpl; auto.
    + destruct (Comments.chooseMode env); simpl; auto.
      apply comments_protected_keeps; exact H1.
    + apply comments_protected_keeps; exact H1.
Qed.

End CommentsKeepsFacts.

(** What a call of [getPostComments] leaves, relative to the map its seed
    makes. *)
Lemma getPostComments_keeps OVER_RANGE add n date mode request listening0 env :
  CommentsKeeps (S n)
    (JsMap.of_entries
       (match UserData.comments request with Some l => l | None => [] end))
    (vars (Comments.after
             (Comments.getPostComments OVER_RANGE add (Some (S n)) date mode
                request listening0 env))).
Proof.
  assert (H0 : CommentsKeeps (S n)
                 (JsMap.of_entries
                    (match UserData.comments request with
                     | Some l => l
                     | None => []
                     end))
                 (Comments.init (S n) date (UserData.comments request))).
  { constructor; simpl; auto; try lia;
      try apply JsMap_of_entries_keys_NoDup; try (intros c []). }
  unfold Comments.getPostComments, tryCatchFinally, on_vars. simpl vars.
  match goal with
  | |- context [Comments.attempt ?a ?b ?c ?d ?e] =>
      pose proof (comments_attempt_keeps a b (S n) _ c d e H0) as Ha;
      destruct (Comments.attempt a b c d e) as [s1 thrown]
  end.
  simpl in *.
  apply (CommentsKeeps_ext (S n) _ s1); try reflexivity. exact Ha.
Qed.

Lemma tightened_le (M : nat) (counts : list nat) : tightened M counts <= M.
Proof.
  unfold tightened. destruct (find (fun n => 0 <? n) counts); lia.
Qed.

(** X11.  A call of [getPostComments] with a positive maximum persists
    entries with distinct keys, and never more than [max] of them when it was
    seeded with at most [max], although [max] itself is lowered during the
    call. *)
Theorem getPostComments_persists_within_quota :
  forall OVER_RANGE add n date mode request listening0 env,
    let x :=
      Comments.getPostComments OVER_RANGE add (Some (S n)) date mode request
        listening0 env
    in
    exists l,
      UserData.comments (userData (Comments.after x)) = Some l
      /\ NoDup (map fst l)
      /\ (List.length
            (match UserData.comments request with Some l0 => l0 | None => [] end)
          <= S n ->
          List.length l <= S n).
Proof.
  intros OVER_RANGE add n date mode request listening0 env x.
  destruct (getPostComments_exit OVER_RANGE add n date mode request listening0
              env) as [_ Hp].
  destruct (getPostComments_keeps OVER_RANGE add n date mode request
              listening0 env) as [Hk _ _ _ _ _ _].
  fold x in Hp, Hk.
  exists (Comments.comments (vars (Comments.after x))).
  split; [exact Hp|]. split; [exact Hk|].
  intros Hseed.
  apply (getPostComments_quota OVER_RANGE add n date mode request listening0
           env Hseed).
Qed.

Lemma getPostComments_persists_within_quota_witness :
  exists l,
    UserData.comments (userData (Comments.after Cases.firstCommentsCall))
    = Some l
    /\ List.length l <= 20.
Proof.
  destruct (getPostComments_persists_within_quota Scenario.OVER_RANGE
              Scenario.add 19 Scenario.window None Scenario.fresh false
              Cases.firstComments) as (l & Hl & _ & Hq).
  exists l. split; [exact Hl|].
  apply Hq. simpl. apply Nat.le_0_l.
Defined.





(** X14.  The quota [getPostComments] works with is the requested maximum
    lowered to the first positive [display_comments.count] its observer
    reads, and to nothing else: a later, larger count does not raise it
    again and a later, smaller count does not lower it further.  It stays
    positive and never exceeds the requested maximum. *)
Theorem getPostComments_quota_follows_first_count :
  forall OVER_RANGE add n date mode request listening0 env,
    let s :=
      vars (Comments.after
              (Comments.getPostComments OVER_RANGE add (Some (S n)) date mode
                 request listening0 env))
    in
    Comments.max s = tightened (S n) (rev (Comments.seen s))
    /\ 0 < Comments.max s <= S n.
Proof.
  intros OVER_RANGE add n date mode request listening0 env s.
  destruct (getPostComments_keeps OVER_RANGE add n date mode request
              listening0 env) as [_ _ _ _ Hmax _ Hpos].
  fold s in Hmax, Hpos.
  split; [exact Hmax|]. split; [exact Hpos|].
  rewrite Hmax. apply tightened_le.
Qed.

Lemma getPostComments_quota_follows_first_count_witness :
  Comments.max
    (vars (Comments.after
             (Comments.getPostComments Scenario.OVER_RANGE Scenario.add
                (Some 5) Scenario.window None Scenario.fresh false
                Scenario.countsReported)))
  = 3.
Proof.
  exact (proj1 (getPostComments_quota_follows_first_count Scenario.OVER_RANGE
                  Scenario.add 4 Scenario.window None Scenario.fresh false
                  Scenario.countsReported)).
Defined.

(** * Comment discovery: nothing left to click *)

Lemma comments_noClick_step OVER_RANGE s c :
  commentsScrolling OVER_RANGE s -> commentsNoClick c ->
  let s' := Comments.onCycle OVER_RANGE s c in
  Comments.clickTries s' = S (Comments.clickTries s)
  /\ Comments.comments s' = Comments.comments s
  /\ Comments.finish s' = Comments.finish s
  /\ Comments.closed s' = Comments.closed s
  /\ Comments.shouldStop OVER_RANGE s' = Comments.shouldStop OVER_RANGE s
  /\ Comments.scrolling s' = (Comments.clickTries s <? 3).
Proof.
  intros (Hc & Hf & Hs & Hstop) (Hk & Hb).
  unfold Comments.onCycle, Comments.maybeStop.
  rewrite Hs, Hc, Hf, Hk, Hb. simpl. rewrite Hc, Hf. simpl.
  change (3 <? S (Comments.clickTries s)) with (3 <=? Comments.clickTries s).
  destruct (3 <=? Comments.clickTries s) eqn:E;
    [apply Nat.leb_le in E|apply Nat.leb_gt in E].
  - simpl. repeat split; try assumption; try reflexivity.
    symmetry. apply Nat.ltb_ge. exact E.
  - match goal with
    | |- context [if negb ?b then _ else _] => destruct b
    end; simpl;
      unfold Comments.shouldStop in *; simpl; rewrite Hstop; simpl;
      rewrite ?Hs; repeat split; try assumption; try reflexivity;
      symmetry; apply Nat.ltb_lt; exact E.
Qed.

Lemma comments_noClick_run OVER_RANGE cs : forall s,
  commentsScrolling OVER_RANGE s -> Forall commentsNoClick cs ->
  Comments.clickTries s + List.length cs <= 3 ->
  let s' := fold_left (Comments.onCycle OVER_RANGE) cs s in
  commentsScrolling OVER_RANGE s'
  /\ Comments.clickTries s' = Comments.clickTries s + List.length cs.
Proof.
  induction cs as [|c cs IH]; intros s Hw Hall Hlen; simpl in *.
  - split; [exact Hw|lia].
  - inversion Hall as [|? ? Hc Hrest]; subst.
    destruct (comments_noClick_step OVER_RANGE s c Hw Hc)
      as (H1 & H2 & H3 & H4 & H5 & H6).
    destruct Hw as (Wc & Wf & Ws & Wstop).
    assert (Hw' : commentsScrolling OVER_RANGE (Comments.onCycle OVER_RANGE s c)).
    { repeat split; try congruence.
      rewrite H6. apply Nat.ltb_lt. lia. }
    destruct (IH _ Hw' Hrest) as [G1 G2]; [lia|].
    split; [exact G1|]. rewrite G2, H1. lia.
Qed.

(** X15.  While comment discovery is under way, every scroll cycle that finds
    no load-more link to click on an unchanged page adds one to [clickTries];
    the driver keeps scrolling through three of them and stops at the fourth.
    A cycle that clicked a link leaves [clickTries] as it is: the tries are
    counted over the whole call, not in a row. *)
Theorem comments_stop_after_four_idle_clicks :
  (forall OVER_RANGE s cs,
      commentsScrolling OVER_RANGE s -> Comments.clickTries s = 0 ->
      Forall commentsNoClick cs ->
      let s' := fold_left (Comments.onCycle OVER_RANGE) cs s in
      (List.length cs <= 3 ->
       Comments.scrolling s' = true
       /\ Comments.clickTries s' = List.length cs)
      /\ (List.length cs = 4 ->
          Comments.scrolling s' = false
          /\ Comments.finish s' = Deferred.Pending))
  /\ (forall OVER_RANGE s c clicks,
         Comments.clicked c = Ok (S clicks) ->
         Comments.clickTries (Comments.onCycle OVER_RANGE s c)
         = Comments.clickTries s).
Proof.
  split.
  - intros OVER_RANGE s cs Hw H0 Hall s'. split.
    + intros Hlen.
      destruct (comments_noClick_run OVER_RANGE cs s Hw Hall)
        as [(_ & _ & Hs & _) Hn]; [lia|].
      fold s' in Hs, Hn. rewrite H0 in Hn. auto.
    + intros Hlen.
      destruct (exists_last (l := cs)) as (front & c & Ecs).
      { intros E. rewrite E in Hlen. discriminate. }
      subst cs. rewrite length_app in Hlen. simpl in Hlen.
      apply Forall_app in Hall. destruct Hall as [Hfront Hlast].
      inversion Hlast as [|? ? Hc _]; subst.
      destruct (comments_noClick_run OVER_RANGE front s Hw Hfront)
        as [Hw' Hn]; [lia|].
      unfold s'. rewrite fold_left_app. simpl.
      destruct (comments_noClick_step OVER_RANGE _ c Hw' Hc)
        as (_ & _ & H3 & _ & _ & H6).
      rewrite H6, H3, Hn, H0.
      replace (0 + List.length front) with 3 by lia.
      destruct Hw' as (_ & Hf & _). auto.
  - intros OVER_RANGE s c clicks Hk.
    assert (Hm : Comments.clickTries (fst (Comments.maybeStop OVER_RANGE c s))
                 = Comments.clickTries s).
    { unfold Comments.maybeStop. rewrite Hk. simpl.
      repeat break_match; reflexivity. }
    unfold Comments.onCycle.
    destruct (Comments.scrolling s); [|reflexivity].
    destruct (Comments.maybeStop OVER_RANGE c s) as [s1 stop]. simpl in Hm.
    destruct stop; exact Hm.
Qed.

Lemma comments_stop_after_four_idle_clicks_witness :
  Comments.scrolling
    (fold_left (Comments.onCycle Scenario.OVER_RANGE)
       (repeat Cases.noClick 3) Scenario.commentsArmed)
  = true
  /\ Comments.scrolling
       (fold_left (Comments.onCycle Scenario.OVER_RANGE)
          (repeat Cases.noClick 4) Scenario.commentsArmed)
     = false.
Proof.
  assert (Hw : commentsScrolling Scenario.OVER_RANGE Scenario.commentsArmed).
  { repeat split. }
  assert (Hall : forall k, Forall commentsNoClick (repeat Cases.noClick k)).
  { intros k. apply Forall_forall. intros c Hc. apply repeat_spec in Hc.
    subst c. split; reflexivity. }
  destruct comments_stop_after_four_idle_clicks as [H1 _].
  split.
  - exact (proj1 (proj1 (H1 Scenario.OVER_RANGE Scenario.commentsArmed
                           (repeat Cases.noClick 3) Hw eq_refl (Hall 3))
                    (le_n 3))).
  - exact (proj1 (proj2 (H1 Scenario.OVER_RANGE Scenario.commentsArmed
                           (repeat Cases.noClick 4) Hw eq_refl (Hall 4))
                    eq_refl)).
Defined.

(** * Review discovery: what a call keeps and by how much it overshoots *)

Section ReviewsKeepsFacts.

Variable max : nat.
Variable kept : JsMap.t FbReview.t.

Local Abbreviation Keeps := (ReviewsKeeps kept).

Lemma ReviewsKeeps_ext s s' :
  Reviews.reviews s' = Reviews.reviews s ->
  postponed (Reviews.effects s') = postponed (Reviews.effects s) ->
  Keeps s -> Keeps s'.
Proof.
  intros E1 E2 [H1 H2 H3 H4].
  constructor; rewrite ?E1, ?E2; auto.
Qed.

Ltac rframe s := apply (ReviewsKeeps_ext s); try reflexivity; auto.

Lemma reviews_forReview_keeps r s :
  Keeps s -> Keeps (fst (Reviews.forReview max r s)).
Proof.
  intros HI. unfold Reviews.forReview.
  assert (G : Keeps
                match FbReview.url r with
                | Some u =>
                    if negb (JsMap.has u (Reviews.reviews s))
                    then Reviews.with_reviews
                           (JsMap.set u r (Reviews.reviews s))
                           (Reviews.effect Postpone s)
                    else s
                | None => s
                end).
  { destruct (FbReview.url r) as [u|] eqn:Eu; [|exact HI].
    destruct (JsMap.has u (Reviews.reviews s)) eqn:Eh; simpl; [exact HI|].
    destruct HI as [H1 H2 H3 H4].
    constructor; simpl.
    - apply JsMap_set_keys_NoDup. exact H1.
    - intros k v Hk. rewrite JsMap_get_set.
      destruct (String.eqb k u) eqn:Ek; auto.
      apply String.eqb_eq in Ek. subst k.
      apply H2 in Hk. unfold JsMap.has in Eh. rewrite Hk in Eh. discriminate.
    - intros k r0. rewrite JsMap_get_set.
      destruct (String.eqb k u) eqn:Ek; auto.
      apply String.eqb_eq in Ek. subst k.
      intros Hr. inversion Hr; subst r0. right. exact Eu.
    - rewrite JsMap_size_set_absent by exact Eh. rewrite H4. lia. }
  break_match; simpl; [|exact G].
  match goal with |- Keeps (Reviews.resolve ?s0) => rframe s0 end.
Qed.

Lemma reviews_forReviews_keeps l : forall s,
  Keeps s -> Keeps (fst (Reviews.forReviews max l s)).
Proof.
  induction l as [|r l IH]; intros s H; simpl.
  - exact H.
  - pose proof (reviews_forReview_keeps r s H) as Hr.
    destruct (Reviews.forReview max r s) as [s' stop]. simpl in Hr.
    destruct stop; simpl; auto.
Qed.

Lemma reviews_scan_keeps found s :
  Keeps s -> Keeps (fst (Reviews.getReviewsFromPage max found s)).
Proof.
  intros H. unfold Reviews.getReviewsFromPage.
  destruct found as [l|e]; simpl; [|exact H].
  rframe (fst (Reviews.forReviews max l s)).
  apply reviews_forReviews_keeps. exact H.
Qed.

Lemma reviews_interceptAjax_keeps s res :
  Keeps s -> Keeps (Reviews.interceptAjax s res).
Proof.
  intros H.
  assert (Ht : Keeps (fst (Reviews.interceptAjax_try res s))).
  { unfold Reviews.interceptAjax_try. repeat break_match; simpl; rframe s. }
  unfold Reviews.interceptAjax.
  destruct (Reviews.interceptAjax_try res s) as [s' [e|]]; simpl in *; auto.
  destruct (Reviews.isReady s'); auto. rframe s'.
Qed.

Lemma reviews_onCycle_keeps s c :
  Keeps s -> Keeps (Reviews.onCycle max s c).
Proof.
  intros H. unfold Reviews.onCycle, Reviews.maybeStop.
  destruct (Reviews.scrolling s); [|exact H].
  pose proof (reviews_scan_keeps (Reviews.found c) s H) as Hs.
  destruct (Reviews.getReviewsFromPage max (Reviews.found c) s) as [s' thrown].
  simpl in Hs. break_match; [rframe s'|exact Hs].
Qed.

Lemma reviews_scanFirst_keeps env s :
  Keeps s -> Keeps (fst (Reviews.scanFirst max env s)).
Proof.
  intros H. unfold Reviews.scanFirst.
  apply reviews_scan_keeps.
  apply (fold_invariant Reviews.interceptAjax Keeps); auto.
  intros s0 res. apply reviews_interceptAjax_keeps.
Qed.

Lemma reviews_attempt_keeps env s :
  Keeps s -> Keeps (fst (Reviews.attempt max env s)).
Proof.
  intros H. unfold Reviews.attempt.
  match goal with
  | |- context [run ?g ?r ?c ?x ?s0 ?evs] =>
      assert (Hr : Keeps (fst (run g r c x s0 evs)));
      [|destruct (run g r c x s0 evs) as [s1 [|e|]]; exact Hr]
  end.
  apply run_invariant.
  - intros s0 res. apply reviews_interceptAjax_keeps.
  - intros s0 c. apply reviews_onCycle_keeps.
  - intros s0 H0. exact H0.
  - rframe s.
Qed.

(** One scan of the page leaves at most one review more than the quota
    allows, or than the accumulator already held. *)
Lemma reviews_forReviews_bound l : forall s,
  JsMap.size (Reviews.reviews (fst (Reviews.forReviews max l s)))
  <= Nat.max max (S (JsMap.size (Reviews.reviews s))).
Proof.
  induction l as [|r l IH]; intros s; simpl.
  - lia.
  - assert (Hr : JsMap.size (Reviews.reviews (fst (Reviews.forReview max r s)))
                 <= S (JsMap.size (Reviews.reviews s))
                 /\ (snd (Reviews.forReview max r s) = false ->
                     JsMap.size
                       (Reviews.reviews (fst (Reviews.forReview max r s)))
                     < max)).
    { unfold Reviews.forReview.
      match goal with
      | |- context [if max <=? JsMap.size (Reviews.reviews ?s0) then _ else _] =>
          assert (Hs : JsMap.size (Reviews.reviews s0)
                       <= S (JsMap.size (Reviews.reviews s)));
          [|destruct (max <=? JsMap.size (Reviews.reviews s0)) eqn:E]
      end.
      - destruct (FbReview.url r) as [u|]; [|lia].
        destruct (negb (JsMap.has u (Reviews.reviews s))); simpl; [|lia].
        apply JsMap_size_set_le.
      - simpl. split; [exact Hs|discriminate].
      - simpl. apply Nat.leb_gt in E. split; [exact Hs|intros _; exact E]. }
    destruct (Reviews.forReview max r s) as [s' stop]. simpl in Hr.
    destruct Hr as [H1 H2].
    destruct stop; simpl; [lia|].
    specialize (IH s'). specialize (H2 eq_refl). lia.
Qed.

Lemma reviews_scan_bound found s :
  JsMap.size (Reviews.reviews (fst (Reviews.getReviewsFromPage max found s)))
  <= Nat.max max (S (JsMap.size (Reviews.reviews s))).
Proof.
  unfold Reviews.getReviewsFromPage. destruct found as [l|e]; simpl.
  - apply reviews_forReviews_bound.
  - lia.
Qed.

Variable B : nat.
Hypothesis B_quota : max <= B.

Lemma reviews_interceptAjax_frame s res :
  Reviews.reviews (Reviews.interceptAjax s res) = Reviews.reviews s
  /\ Reviews.scrolling (Reviews.interceptAjax s res) = Reviews.scrolling s.
Proof.
  assert (Ht : Reviews.reviews (fst (Reviews.interceptAjax_try res s))
               = Reviews.reviews s
               /\ Reviews.scrolling (fst (Reviews.interceptAjax_try res s))
                  = Reviews.scrolling s).
  { unfold Reviews.interceptAjax_try. repeat break_match; simpl; auto. }
  unfold Reviews.interceptAjax.
  destruct (Reviews.interceptAjax_try res s) as [s' [e|]]; simpl in *; auto.
  destruct (Reviews.isReady s'); simpl; exact Ht.
Qed.

Lemma reviews_onCycle_bound s c :
  reviewsBound B s -> reviewsBound B (Reviews.onCycle max s c).
Proof.
  intros [H1 H2]. unfold Reviews.onCycle, Reviews.maybeStop.
  destruct (Reviews.scrolling s) eqn:Es; [|split; [rewrite Es; discriminate|exact H2]].
  specialize (H1 eq_refl).
  pose proof (reviews_scan_bound (Reviews.found c) s) as Hs.
  destruct (Reviews.getReviewsFromPage max (Reviews.found c) s) as [s' thrown].
  simpl in Hs.
  destruct (max <=? JsMap.size (Reviews.reviews s')) eqn:E; simpl.
  - split; simpl; [discriminate|lia].
  - apply Nat.leb_gt in E.
    break_match; split; simpl; intros; lia.
Qed.

Lemma reviews_attempt_bound env s :
  JsMap.size (Reviews.reviews s) <= B ->
  JsMap.size (Reviews.reviews (fst (Reviews.attempt max env s))) <= S B.
Proof.
  intros H. unfold Reviews.attempt.
  match goal with
  | |- context [run ?g ?r ?c ?x ?s0 ?evs] =>
      assert (Hr : reviewsBound B (fst (run g r c x s0 evs)));
      [|destruct (run g r c x s0 evs) as [s1 [|e|]]; apply Hr]
  end.
  apply run_invariant.
  - intros s0 res [H1 H2].
    destruct (reviews_interceptAjax_frame s0 res) as [E1 E2].
    split; rewrite E1, ?E2; assumption.
  - intros s0 c. apply reviews_onCycle_bound.
  - intros s0 H0. exact H0.
  - split; simpl; intros; lia.
Qed.

End ReviewsKeepsFacts.

(** What a call of [getReviews] leaves in its accumulator, relative to the
    map its seed makes, whichever way it ends. *)
Lemma getReviews_keeps story n date request listening0 env :
  ReviewsKeeps (JsMap.of_entries
                  (match UserData.reviews request with
                   | Some l => l
                   | None => []
                   end))
    (vars (Reviews.after
             (Reviews.getReviews story (Some (S n)) date request listening0
                env))).
Proof.
  assert (H0 : ReviewsKeeps
                 (JsMap.of_entries
                    (match UserData.reviews request with
                     | Some l => l
                     | None => []
                     end))
                 (Reviews.init (UserData.reviews request))).
  { constructor; simpl; auto.
    apply JsMap_of_entries_keys_NoDup. }
  unfold Reviews.getReviews, tryCatchFinally, on_vars. simpl.
  destruct (Reviews.ld env) as [l|e]; simpl; [|exact H0].
  pose proof (reviews_scanFirst_keeps (S n) _ env _ H0) as H1.
  destruct (Reviews.scanFirst (S n) env
              (Reviews.init (UserData.reviews request))) as [s1 [e|]];
    simpl in *; [exact H1|].
  pose proof (reviews_attempt_keeps (S n) _ env s1 H1) as H2.
  destruct (Reviews.attempt (S n) env s1) as [s2 thrown]. simpl in *.
  apply (ReviewsKeeps_ext _ s2); try reflexivity. exact H2.
Qed.

Lemma getReviews_bound story n date request listening0 env :
  let seeded :=
    JsMap.size
      (JsMap.of_entries
         (match UserData.reviews request with Some l => l | None => [] end))
  in
  JsMap.size
    (Reviews.reviews
       (vars (Reviews.after
                (Reviews.getReviews story (Some (S n)) date request listening0
                   env))))
  <= S (Nat.max (S n) (S seeded)).
Proof.
  intros seeded.
  unfold Reviews.getReviews, tryCatchFinally, on_vars. simpl.
  destruct (Reviews.ld env) as [l|e]; simpl; [|fold seeded; lia].
  assert (H1 : JsMap.size
                 (Reviews.reviews
                    (fst (Reviews.scanFirst (S n) env
                            (Reviews.init (UserData.reviews request)))))
               <= Nat.max (S n) (S seeded)).
  { unfold Reviews.scanFirst.
    match goal with
    | |- context [Reviews.getReviewsFromPage _ ?f ?s0] =>
        pose proof (reviews_scan_bound (S n) f s0) as Hb;
        assert (Hs : Reviews.reviews s0
                     = Reviews.reviews
                         (Reviews.init (UserData.reviews request)))
    end.
    { apply (fold_invariant Reviews.interceptAjax
               (fun s => Reviews.reviews s
                         = Reviews.reviews
                             (Reviews.init (UserData.reviews request))));
        [|reflexivity].
      intros s0 res H0.
      destruct (reviews_interceptAjax_frame s0 res) as [E _].
      rewrite E. exact H0. }
    rewrite Hs in Hb. exact Hb. }
  destruct (Reviews.scanFirst (S n) env
              (Reviews.init (UserData.reviews request))) as [s1 [e|]];
    simpl in *; [lia|].
  pose proof (reviews_attempt_bound (S n) (Nat.max (S n) (S seeded))
                (Nat.le_max_l _ _) env s1 H1) as H2.
  destruct (Reviews.attempt (S n) env s1) as [s2 thrown]. simpl in *.
  exact H2.
Qed.

(** X16.  A call of [getReviews] that gets past its first scan persists
    entries with distinct keys that hold every review of the seed with the
    value the seed had, and every other entry is a review stored under its
    own url. *)
Theorem getReviews_keeps_seed :
  forall story n date request listening0 env l s1,
    Reviews.ld env = Ok l ->
    Reviews.scanFirst (S n) env (Reviews.init (UserData.reviews request))
    = (s1, None) ->
    let x := Reviews.getReviews story (Some (S n)) date request listening0 env in
    let seed :=
      JsMap.of_entries
        (match UserData.reviews request with Some l0 => l0 | None => [] end)
    in
    exists entries,
      UserData.reviews (userData (Reviews.after x)) = Some entries
      /\ NoDup (map fst entries)
      /\ (forall k v, JsMap.get k seed = Some v ->
                      JsMap.get k entries = Some v)
      /\ (forall k r, JsMap.get k entries = Some r ->
                      JsMap.get k seed = Some r \/ FbReview.url r = Some k).
Proof.
  intros story n date request listening0 env l s1 Hl Hs x seed.
  destruct (getReviews_exit story n date request listening0 env l s1 Hl Hs)
    as [_ Hp].
  destruct (getReviews_keeps story n date request listening0 env)
    as [H1 H2 H3 _].
  fold x in Hp, H1, H2, H3. fold seed in H2, H3.
  exists (Reviews.reviews (vars (Reviews.after x))).
  split; [exact Hp|]. split; [exact H1|]. split; [exact H2|exact H3].
Qed.

Lemma getReviews_keeps_seed_witness :
  exists entries,
    UserData.reviews
      (userData
         (Reviews.after
            (Reviews.getReviews Scenario.noPermalink (Some 1) Scenario.window
               Scenario.fullSeed false Scenario.oneMore)))
    = Some entries
    /\ JsMap.get "a" entries = Some (Scenario.review "a" 150).
Proof.
  destruct (getReviews_keeps_seed Scenario.noPermalink 0 Scenario.window
              Scenario.fullSeed false Scenario.oneMore Scenario.noLd _
              eq_refl eq_refl) as (entries & He & _ & Hk & _).
  exists entries. split; [exact He|].
  apply Hk. reflexivity.
Defined.

(** X17.  [getReviews] postpones the idle abort exactly once for each review
    its accumulator gains over the seed: a scan that finds nothing new never
    postpones it, whatever else the page does. *)
Theorem getReviews_postpones_once_per_new_review :
  forall story n date request listening0 env,
    let s :=
      vars (Reviews.after
              (Reviews.getReviews story (Some (S n)) date request listening0
                 env))
    in
    JsMap.size (Reviews.reviews s)
    = JsMap.size
        (JsMap.of_entries
           (match UserData.reviews request with Some l => l | None => [] end))
      + postponed (Reviews.effects s).
Proof.
  intros story n date request listening0 env s.
  destruct (getReviews_keeps story n date request listening0 env)
    as [_ _ _ H]. exact H.
Qed.

(** X18.  Review discovery tests its quota after it stores a review, so it
    overshoots, but only by one review per scan of the page: a scan leaves at
    most [max], or one review more than the accumulator held; and a whole
    call leaves at most [max + 1] reviews when the seed held fewer than
    [max], and at most two more than the seed otherwise. *)
Theorem getReviews_overshoots_by_one :
  (forall max found s,
      JsMap.size
        (Reviews.reviews (fst (Reviews.getReviewsFromPage max found s)))
      <= Nat.max max (S (JsMap.size (Reviews.reviews s))))
  /\ (forall story n date request listening0 env,
         let seeded :=
           JsMap.size
             (JsMap.of_entries
                (match UserData.reviews request with
                 | Some l => l
                 | None => []
                 end))
         in
         let final :=
           JsMap.size
             (Reviews.reviews
                (vars (Reviews.after
                         (Reviews.getReviews story (Some (S n)) date request
                            listening0 env))))
         in
         (seeded < S n -> final <= S (S n))
         /\ (S n <= seeded -> final <= seeded + 2)).
Proof.
  split.
  - intros. apply reviews_scan_bound.
  - intros story n date request listening0 env seeded final.
    pose proof (getReviews_bound story n date request listening0 env) as H.
    fold seeded final in H. cbv zeta in H.
    split; intros; lia.
Qed.

Lemma getReviews_overshoots_by_one_witness :
  JsMap.size
    (Reviews.reviews
       (vars (Reviews.after
                (Reviews.getReviews Scenario.noPermalink (Some 1)
                   Scenario.window Scenario.fullSeed false Scenario.oneMore))))
  <= 1 + 2
  /\ JsMap.size
       (Reviews.reviews
          (vars (Reviews.after
                   (Reviews.getReviews Scenario.noPermalink (Some 5)
                      Scenario.window Scenario.fullSeed false
                      Scenario.oneMore))))
     <= 6.
Proof.
  destruct getReviews_overshoots_by_one as [_ H].
  split.
  - exact (proj2 (H Scenario.noPermalink 0 Scenario.window Scenario.fullSeed
                    false Scenario.oneMore) (le_n 1)).
  - refine (proj1 (H Scenario.noPermalink 4 Scenario.window Scenario.fullSeed
                     false Scenario.oneMore) _).
    repeat constructor.
Defined.
